(** * AIMailBox: signature gate, heuristics, AI-answer parsing, reply composer

    A shallow embedding of the Python sources
      - [email_processor.py]  (EmailProcessor)
      - [utils.py]            (is_forwarded_email)
      - [ai_analyzer.py]      (EmailAnalyzer)
      - [trans.py]            (EmailTranslator)
    together with the parts of the Python standard library they call
    (str methods, [re], [hmac]/[hashlib]), and the properties of the
    specification proved about them.

    Conventions.  A Python [str] is the list of its code points; [bytes]
    is a list of integers below 256.  Code that can raise runs in the
    monad [M] of module Runtime, which also threads the outside world
    (the replies of the completion endpoint, the clock, the random source)
    and a trace of the external calls made. *)

From Stdlib Require Import ZArith Bool Lia String Ascii List.
Import ListNotations.
Local Open Scope Z_scope.

(* ================================================================== *)
(** * Python strings *)
(* ================================================================== *)

Module Py.

(** A [str]: the sequence of its Unicode code points. *)
Definition pystr := list Z.
(** A [bytes] object. *)
Definition pybytes := list Z.

(** UTF-8 bytes of a literal of this file, so that the literals of the
    sources can be written as they stand. *)
Definition bytes_of (s : string) : pybytes :=
  map (fun a => Z.of_N (N_of_ascii a)) (list_ascii_of_string s).

Fixpoint utf8_decode (bs : pybytes) : pystr :=
  match bs with
  | [] => []
  | b :: t =>
    if b <? 0x80 then b :: utf8_decode t
    else if b <? 0xE0 then
      match t with
      | b2 :: t2 => ((b - 0xC0) * 64 + (b2 - 0x80)) :: utf8_decode t2
      | _ => []
      end
    else if b <? 0xF0 then
      match t with
      | b2 :: b3 :: t3 =>
        ((b - 0xE0) * 4096 + (b2 - 0x80) * 64 + (b3 - 0x80)) :: utf8_decode t3
      | _ => []
      end
    else
      match t with
      | b2 :: b3 :: b4 :: t4 =>
        ((b - 0xF0) * 262144 + (b2 - 0x80) * 4096 + (b3 - 0x80) * 64 + (b4 - 0x80))
          :: utf8_decode t4
      | _ => []
      end
  end.

(** [u "..."] is the Python literal ['...']. *)
Definition u (s : string) : pystr := utf8_decode (bytes_of s).

(** The double quote, which the literals of this file cannot hold. *)
Definition dq : pystr := [34].
Definition nl : Z := 10.

(** [str.encode()]: UTF-8; a lone surrogate raises UnicodeEncodeError
    ([None] here). *)
Definition encode_char (c : Z) : option pybytes :=
  if c <? 0 then None
  else if c <? 0x80 then Some [c]
  else if c <? 0x800 then Some [0xC0 + c / 64; 0x80 + c mod 64]
  else if c <? 0x10000 then
    if (0xD800 <=? c) && (c <=? 0xDFFF) then None
    else Some [0xE0 + c / 4096; 0x80 + (c / 64) mod 64; 0x80 + c mod 64]
  else if c <? 0x110000 then
    Some [0xF0 + c / 262144; 0x80 + (c / 4096) mod 64;
          0x80 + (c / 64) mod 64; 0x80 + c mod 64]
  else None.

Fixpoint encode (s : pystr) : option pybytes :=
  match s with
  | [] => Some []
  | c :: s' =>
    match encode_char c, encode s' with
    | Some b, Some bs => Some (b ++ bs)
    | _, _ => None
    end
  end.

(** [a == b] on strings. *)
Fixpoint str_eqb (a b : pystr) : bool :=
  match a, b with
  | [], [] => true
  | x :: a', y :: b' => (x =? y) && str_eqb a' b'
  | _, _ => false
  end.

(** [s.startswith(p)]. *)
Fixpoint startswith (p s : pystr) : bool :=
  match p, s with
  | [], _ => true
  | x :: p', y :: s' => (x =? y) && startswith p' s'
  | _ :: _, [] => false
  end.

(** [needle in hay] on strings: a substring test. *)
Fixpoint contains (needle hay : pystr) : bool :=
  startswith needle hay ||
  match hay with
  | [] => false
  | _ :: hay' => contains needle hay'
  end.

(** [c in s] for a one-character string [c]. *)
Definition has_char (c : Z) (s : pystr) : bool := existsb (Z.eqb c) s.

(** [str.isspace] of one character; [\s] of [re] on [str] patterns is the
    same set. *)
Definition isspace (c : Z) : bool :=
  ((9 <=? c) && (c <=? 13)) || ((28 <=? c) && (c <=? 32))
  || (c =? 133) || (c =? 160) || (c =? 5760)
  || ((8192 <=? c) && (c <=? 8202))
  || (c =? 8232) || (c =? 8233) || (c =? 8239) || (c =? 8287) || (c =? 12288).

Fixpoint lstrip (s : pystr) : pystr :=
  match s with
  | c :: s' => if isspace c then lstrip s' else s
  | [] => []
  end.

Definition rstrip (s : pystr) : pystr := rev (lstrip (rev s)).

(** [s.strip()]. *)
Definition strip (s : pystr) : pystr := rstrip (lstrip s).

(** [s.split(sep)] for a one-character separator: never an empty list. *)
Fixpoint split (sep : Z) (s : pystr) : list pystr :=
  match s with
  | [] => [[]]
  | c :: s' =>
    if c =? sep then [] :: split sep s'
    else match split sep s' with
         | l :: ls => (c :: l) :: ls
         | [] => [[c]]
         end
  end.

(** [sep.join(parts)]. *)
Fixpoint join (sep : pystr) (parts : list pystr) : pystr :=
  match parts with
  | [] => []
  | [p] => p
  | p :: ps => p ++ sep ++ join sep ps
  end.

(** [s.replace(c, '')] for a one-character [c]. *)
Definition remove_char (c : Z) (s : pystr) : pystr :=
  filter (fun x => negb (x =? c)) s.

(** [len(s)]. *)
Definition len {A} (s : list A) : Z := Z.of_nat (length s).

(** [s[:n]], for [n] of either sign. *)
Definition slice_to {A} (n : Z) (s : list A) : list A :=
  if n <? 0 then firstn (length s - Z.to_nat (- n)) s
  else firstn (Z.to_nat n) s.

(** [s[-n:]] for a positive [n]. *)
Definition slice_last {A} (n : nat) (s : list A) : list A :=
  skipn (length s - n) s.

(** [str(n)] of an [int]. *)
Fixpoint digits (fuel : nat) (n : Z) (acc : pystr) : pystr :=
  match fuel with
  | O => acc
  | S f =>
    let acc' := (48 + n mod 10) :: acc in
    if n <? 10 then acc' else digits f (n / 10) acc'
  end.

Definition str_of_int (n : Z) : pystr :=
  if n <? 0 then 45 :: digits (S (Z.to_nat (Z.log2 (- n)))) (- n) []
  else digits (S (Z.to_nat (Z.log2 n))) n [].

(** Truth value of a string: non-empty. *)
Definition truthy (s : pystr) : bool :=
  match s with [] => false | _ => true end.

(** Truth value of an [Optional[str]]. *)
Definition truthy_opt (s : option pystr) : bool :=
  match s with Some (_ :: _) => true | _ => false end.

(** [str.lower()].  The functions of the sources that call it take it
    as an interface, of which only [''.lower() == ''] is used; the
    instance below is the mapping of the interpreter. *)
Class CaseFolding := {
  lower : pystr -> pystr;
  lower_nil : lower [] = []
}.

(** [str.lower()], as CPython 3.11 computes it from the tables of
    Unicode 14.0.

    The code points whose lower case is one other character, by runs:
    from [lo] to [hi] in steps of [step], the lower case of a code point
    is [delta] further. *)
Definition lower_runs : list (Z * Z * Z * Z) :=
  [
    (65, 90, 1, 32); (192, 214, 1, 32); (216, 222, 1, 32); (256, 302, 2, 1);
    (306, 310, 2, 1); (313, 327, 2, 1); (330, 374, 2, 1);
    (376, 376, 1, (-121)); (377, 381, 2, 1); (385, 385, 1, 210);
    (386, 388, 2, 1); (390, 390, 1, 206); (391, 391, 1, 1);
    (393, 394, 1, 205); (395, 395, 1, 1); (398, 398, 1, 79);
    (399, 399, 1, 202); (400, 400, 1, 203); (401, 401, 1, 1);
    (403, 403, 1, 205); (404, 404, 1, 207); (406, 406, 1, 211);
    (407, 407, 1, 209); (408, 408, 1, 1); (412, 412, 1, 211);
    (413, 413, 1, 213); (415, 415, 1, 214); (416, 420, 2, 1);
    (422, 422, 1, 218); (423, 423, 1, 1); (425, 425, 1, 218);
    (428, 428, 1, 1); (430, 430, 1, 218); (431, 431, 1, 1);
    (433, 434, 1, 217); (435, 437, 2, 1); (439, 439, 1, 219);
    (440, 440, 1, 1); (444, 444, 1, 1); (452, 452, 1, 2); (453, 453, 1, 1);
    (455, 455, 1, 2); (456, 456, 1, 1); (458, 458, 1, 2); (459, 475, 2, 1);
    (478, 494, 2, 1); (497, 497, 1, 2); (498, 500, 2, 1);
    (502, 502, 1, (-97)); (503, 503, 1, (-56)); (504, 542, 2, 1);
    (544, 544, 1, (-130)); (546, 562, 2, 1); (570, 570, 1, 10795);
    (571, 571, 1, 1); (573, 573, 1, (-163)); (574, 574, 1, 10792);
    (577, 577, 1, 1); (579, 579, 1, (-195)); (580, 580, 1, 69);
    (581, 581, 1, 71); (582, 590, 2, 1); (880, 882, 2, 1); (886, 886, 1, 1);
    (895, 895, 1, 116); (902, 902, 1, 38); (904, 906, 1, 37);
    (908, 908, 1, 64); (910, 911, 1, 63); (913, 929, 1, 32);
    (931, 939, 1, 32); (975, 975, 1, 8); (984, 1006, 2, 1);
    (1012, 1012, 1, (-60)); (1015, 1015, 1, 1); (1017, 1017, 1, (-7));
    (1018, 1018, 1, 1); (1021, 1023, 1, (-130)); (1024, 1039, 1, 80);
    (1040, 1071, 1, 32); (1120, 1152, 2, 1); (1162, 1214, 2, 1);
    (1216, 1216, 1, 15); (1217, 1229, 2, 1); (1232, 1326, 2, 1);
    (1329, 1366, 1, 48); (4256, 4293, 1, 7264); (4295, 4295, 1, 7264);
    (4301, 4301, 1, 7264); (5024, 5103, 1, 38864); (5104, 5109, 1, 8);
    (7312, 7354, 1, (-3008)); (7357, 7359, 1, (-3008)); (7680, 7828, 2, 1);
    (7838, 7838, 1, (-7615)); (7840, 7934, 2, 1); (7944, 7951, 1, (-8));
    (7960, 7965, 1, (-8)); (7976, 7983, 1, (-8)); (7992, 7999, 1, (-8));
    (8008, 8013, 1, (-8)); (8025, 8031, 2, (-8)); (8040, 8047, 1, (-8));
    (8072, 8079, 1, (-8)); (8088, 8095, 1, (-8)); (8104, 8111, 1, (-8));
    (8120, 8121, 1, (-8)); (8122, 8123, 1, (-74)); (8124, 8124, 1, (-9));
    (8136, 8139, 1, (-86)); (8140, 8140, 1, (-9)); (8152, 8153, 1, (-8));
    (8154, 8155, 1, (-100)); (8168, 8169, 1, (-8)); (8170, 8171, 1, (-112));
    (8172, 8172, 1, (-7)); (8184, 8185, 1, (-128)); (8186, 8187, 1, (-126));
    (8188, 8188, 1, (-9)); (8486, 8486, 1, (-7517));
    (8490, 8490, 1, (-8383)); (8491, 8491, 1, (-8262)); (8498, 8498, 1, 28);
    (8544, 8559, 1, 16); (8579, 8579, 1, 1); (9398, 9423, 1, 26);
    (11264, 11311, 1, 48); (11360, 11360, 1, 1);
    (11362, 11362, 1, (-10743)); (11363, 11363, 1, (-3814));
    (11364, 11364, 1, (-10727)); (11367, 11371, 2, 1);
    (11373, 11373, 1, (-10780)); (11374, 11374, 1, (-10749));
    (11375, 11375, 1, (-10783)); (11376, 11376, 1, (-10782));
    (11378, 11378, 1, 1); (11381, 11381, 1, 1); (11390, 11391, 1, (-10815));
    (11392, 11490, 2, 1); (11499, 11501, 2, 1); (11506, 11506, 1, 1);
    (42560, 42604, 2, 1); (42624, 42650, 2, 1); (42786, 42798, 2, 1);
    (42802, 42862, 2, 1); (42873, 42875, 2, 1); (42877, 42877, 1, (-35332));
    (42878, 42886, 2, 1); (42891, 42891, 1, 1); (42893, 42893, 1, (-42280));
    (42896, 42898, 2, 1); (42902, 42920, 2, 1); (42922, 42922, 1, (-42308));
    (42923, 42923, 1, (-42319)); (42924, 42924, 1, (-42315));
    (42925, 42925, 1, (-42305)); (42926, 42926, 1, (-42308));
    (42928, 42928, 1, (-42258)); (42929, 42929, 1, (-42282));
    (42930, 42930, 1, (-42261)); (42931, 42931, 1, 928);
    (42932, 42946, 2, 1); (42948, 42948, 1, (-48));
    (42949, 42949, 1, (-42307)); (42950, 42950, 1, (-35384));
    (42951, 42953, 2, 1); (42960, 42960, 1, 1); (42966, 42968, 2, 1);
    (42997, 42997, 1, 1); (65313, 65338, 1, 32); (66560, 66599, 1, 40);
    (66736, 66771, 1, 40); (66928, 66938, 1, 39); (66940, 66954, 1, 39);
    (66956, 66962, 1, 39); (66964, 66965, 1, 39); (68736, 68786, 1, 64);
    (71840, 71871, 1, 32); (93760, 93791, 1, 32); (125184, 125217, 1, 34) ].

(** The lower case of one character out of context.  U+0130, the
    capital I with a dot, is the one character with a lower case of two
    code points. *)
Definition lower_char (c : Z) : pystr :=
  if c =? 0x130 then [105; 0x307]
  else
    match find (fun r => let '(lo, hi, step, _) := r in
                         if (lo <=? c) && (c <=? hi)
                         then (c - lo) mod step =? 0 else false)
               lower_runs with
    | Some (_, _, _, delta) => [c + delta]
    | None => [c]
    end.

Definition in_ranges (table : list (Z * Z)) (c : Z) : bool :=
  existsb (fun r => (fst r <=? c) && (c <=? snd r)) table.

(** The code points with the property Case_Ignorable, and those with
    the property Cased among the others. *)
Definition case_ignorable_ranges : list (Z * Z) :=
  [
    (39, 39); (46, 46); (58, 58); (94, 94); (96, 96); (168, 168);
    (173, 173); (175, 175); (180, 180); (183, 184); (688, 879); (884, 885);
    (890, 890); (900, 901); (903, 903); (1155, 1161); (1369, 1369);
    (1375, 1375); (1425, 1469); (1471, 1471); (1473, 1474); (1476, 1477);
    (1479, 1479); (1524, 1524); (1536, 1541); (1552, 1562); (1564, 1564);
    (1600, 1600); (1611, 1631); (1648, 1648); (1750, 1757); (1759, 1768);
    (1770, 1773); (1807, 1807); (1809, 1809); (1840, 1866); (1958, 1968);
    (2027, 2037); (2042, 2042); (2045, 2045); (2070, 2093); (2137, 2139);
    (2184, 2184); (2192, 2193); (2200, 2207); (2249, 2306); (2362, 2362);
    (2364, 2364); (2369, 2376); (2381, 2381); (2385, 2391); (2402, 2403);
    (2417, 2417); (2433, 2433); (2492, 2492); (2497, 2500); (2509, 2509);
    (2530, 2531); (2558, 2558); (2561, 2562); (2620, 2620); (2625, 2626);
    (2631, 2632); (2635, 2637); (2641, 2641); (2672, 2673); (2677, 2677);
    (2689, 2690); (2748, 2748); (2753, 2757); (2759, 2760); (2765, 2765);
    (2786, 2787); (2810, 2815); (2817, 2817); (2876, 2876); (2879, 2879);
    (2881, 2884); (2893, 2893); (2901, 2902); (2914, 2915); (2946, 2946);
    (3008, 3008); (3021, 3021); (3072, 3072); (3076, 3076); (3132, 3132);
    (3134, 3136); (3142, 3144); (3146, 3149); (3157, 3158); (3170, 3171);
    (3201, 3201); (3260, 3260); (3263, 3263); (3270, 3270); (3276, 3277);
    (3298, 3299); (3328, 3329); (3387, 3388); (3393, 3396); (3405, 3405);
    (3426, 3427); (3457, 3457); (3530, 3530); (3538, 3540); (3542, 3542);
    (3633, 3633); (3636, 3642); (3654, 3662); (3761, 3761); (3764, 3772);
    (3782, 3782); (3784, 3789); (3864, 3865); (3893, 3893); (3895, 3895);
    (3897, 3897); (3953, 3966); (3968, 3972); (3974, 3975); (3981, 3991);
    (3993, 4028); (4038, 4038); (4141, 4144); (4146, 4151); (4153, 4154);
    (4157, 4158); (4184, 4185); (4190, 4192); (4209, 4212); (4226, 4226);
    (4229, 4230); (4237, 4237); (4253, 4253); (4348, 4348); (4957, 4959);
    (5906, 5908); (5938, 5939); (5970, 5971); (6002, 6003); (6068, 6069);
    (6071, 6077); (6086, 6086); (6089, 6099); (6103, 6103); (6109, 6109);
    (6155, 6159); (6211, 6211); (6277, 6278); (6313, 6313); (6432, 6434);
    (6439, 6440); (6450, 6450); (6457, 6459); (6679, 6680); (6683, 6683);
    (6742, 6742); (6744, 6750); (6752, 6752); (6754, 6754); (6757, 6764);
    (6771, 6780); (6783, 6783); (6823, 6823); (6832, 6862); (6912, 6915);
    (6964, 6964); (6966, 6970); (6972, 6972); (6978, 6978); (7019, 7027);
    (7040, 7041); (7074, 7077); (7080, 7081); (7083, 7085); (7142, 7142);
    (7144, 7145); (7149, 7149); (7151, 7153); (7212, 7219); (7222, 7223);
    (7288, 7293); (7376, 7378); (7380, 7392); (7394, 7400); (7405, 7405);
    (7412, 7412); (7416, 7417); (7468, 7530); (7544, 7544); (7579, 7679);
    (8125, 8125); (8127, 8129); (8141, 8143); (8157, 8159); (8173, 8175);
    (8189, 8190); (8203, 8207); (8216, 8217); (8228, 8228); (8231, 8231);
    (8234, 8238); (8288, 8292); (8294, 8303); (8305, 8305); (8319, 8319);
    (8336, 8348); (8400, 8432); (11388, 11389); (11503, 11505);
    (11631, 11631); (11647, 11647); (11744, 11775); (11823, 11823);
    (12293, 12293); (12330, 12333); (12337, 12341); (12347, 12347);
    (12441, 12446); (12540, 12542); (40981, 40981); (42232, 42237);
    (42508, 42508); (42607, 42610); (42612, 42621); (42623, 42623);
    (42652, 42655); (42736, 42737); (42752, 42785); (42864, 42864);
    (42888, 42890); (42994, 42996); (43000, 43001); (43010, 43010);
    (43014, 43014); (43019, 43019); (43045, 43046); (43052, 43052);
    (43204, 43205); (43232, 43249); (43263, 43263); (43302, 43309);
    (43335, 43345); (43392, 43394); (43443, 43443); (43446, 43449);
    (43452, 43453); (43471, 43471); (43493, 43494); (43561, 43566);
    (43569, 43570); (43573, 43574); (43587, 43587); (43596, 43596);
    (43632, 43632); (43644, 43644); (43696, 43696); (43698, 43700);
    (43703, 43704); (43710, 43711); (43713, 43713); (43741, 43741);
    (43756, 43757); (43763, 43764); (43766, 43766); (43867, 43871);
    (43881, 43883); (44005, 44005); (44008, 44008); (44013, 44013);
    (64286, 64286); (64434, 64450); (65024, 65039); (65043, 65043);
    (65056, 65071); (65106, 65106); (65109, 65109); (65279, 65279);
    (65287, 65287); (65294, 65294); (65306, 65306); (65342, 65342);
    (65344, 65344); (65392, 65392); (65438, 65439); (65507, 65507);
    (65529, 65531); (66045, 66045); (66272, 66272); (66422, 66426);
    (67456, 67461); (67463, 67504); (67506, 67514); (68097, 68099);
    (68101, 68102); (68108, 68111); (68152, 68154); (68159, 68159);
    (68325, 68326); (68900, 68903); (69291, 69292); (69446, 69456);
    (69506, 69509); (69633, 69633); (69688, 69702); (69744, 69744);
    (69747, 69748); (69759, 69761); (69811, 69814); (69817, 69818);
    (69821, 69821); (69826, 69826); (69837, 69837); (69888, 69890);
    (69927, 69931); (69933, 69940); (70003, 70003); (70016, 70017);
    (70070, 70078); (70089, 70092); (70095, 70095); (70191, 70193);
    (70196, 70196); (70198, 70199); (70206, 70206); (70367, 70367);
    (70371, 70378); (70400, 70401); (70459, 70460); (70464, 70464);
    (70502, 70508); (70512, 70516); (70712, 70719); (70722, 70724);
    (70726, 70726); (70750, 70750); (70835, 70840); (70842, 70842);
    (70847, 70848); (70850, 70851); (71090, 71093); (71100, 71101);
    (71103, 71104); (71132, 71133); (71219, 71226); (71229, 71229);
    (71231, 71232); (71339, 71339); (71341, 71341); (71344, 71349);
    (71351, 71351); (71453, 71455); (71458, 71461); (71463, 71467);
    (71727, 71735); (71737, 71738); (71995, 71996); (71998, 71998);
    (72003, 72003); (72148, 72151); (72154, 72155); (72160, 72160);
    (72193, 72202); (72243, 72248); (72251, 72254); (72263, 72263);
    (72273, 72278); (72281, 72283); (72330, 72342); (72344, 72345);
    (72752, 72758); (72760, 72765); (72767, 72767); (72850, 72871);
    (72874, 72880); (72882, 72883); (72885, 72886); (73009, 73014);
    (73018, 73018); (73020, 73021); (73023, 73029); (73031, 73031);
    (73104, 73105); (73109, 73109); (73111, 73111); (73459, 73460);
    (78896, 78904); (92912, 92916); (92976, 92982); (92992, 92995);
    (94031, 94031); (94095, 94111); (94176, 94177); (94179, 94180);
    (110576, 110579); (110581, 110587); (110589, 110590); (113821, 113822);
    (113824, 113827); (118528, 118573); (118576, 118598); (119143, 119145);
    (119155, 119170); (119173, 119179); (119210, 119213); (119362, 119364);
    (121344, 121398); (121403, 121452); (121461, 121461); (121476, 121476);
    (121499, 121503); (121505, 121519); (122880, 122886); (122888, 122904);
    (122907, 122913); (122915, 122916); (122918, 122922); (123184, 123197);
    (123566, 123566); (123628, 123631); (125136, 125142); (125252, 125259);
    (127995, 127999); (917505, 917505); (917536, 917631); (917760, 917999) ].

Definition cased_ranges : list (Z * Z) :=
  [
    (65, 90); (97, 122); (170, 170); (181, 181); (186, 186); (192, 214);
    (216, 246); (248, 442); (444, 447); (452, 659); (661, 687); (880, 883);
    (886, 887); (891, 893); (895, 895); (902, 902); (904, 906); (908, 908);
    (910, 929); (931, 1013); (1015, 1153); (1162, 1327); (1329, 1366);
    (1376, 1416); (4256, 4293); (4295, 4295); (4301, 4301); (4304, 4346);
    (4349, 4351); (5024, 5109); (5112, 5117); (7296, 7304); (7312, 7354);
    (7357, 7359); (7424, 7467); (7531, 7543); (7545, 7578); (7680, 7957);
    (7960, 7965); (7968, 8005); (8008, 8013); (8016, 8023); (8025, 8025);
    (8027, 8027); (8029, 8029); (8031, 8061); (8064, 8116); (8118, 8124);
    (8126, 8126); (8130, 8132); (8134, 8140); (8144, 8147); (8150, 8155);
    (8160, 8172); (8178, 8180); (8182, 8188); (8450, 8450); (8455, 8455);
    (8458, 8467); (8469, 8469); (8473, 8477); (8484, 8484); (8486, 8486);
    (8488, 8488); (8490, 8493); (8495, 8500); (8505, 8505); (8508, 8511);
    (8517, 8521); (8526, 8526); (8544, 8575); (8579, 8580); (9398, 9449);
    (11264, 11387); (11390, 11492); (11499, 11502); (11506, 11507);
    (11520, 11557); (11559, 11559); (11565, 11565); (42560, 42605);
    (42624, 42651); (42786, 42863); (42865, 42887); (42891, 42894);
    (42896, 42954); (42960, 42961); (42963, 42963); (42965, 42969);
    (42997, 42998); (43002, 43002); (43824, 43866); (43872, 43880);
    (43888, 43967); (64256, 64262); (64275, 64279); (65313, 65338);
    (65345, 65370); (66560, 66639); (66736, 66771); (66776, 66811);
    (66928, 66938); (66940, 66954); (66956, 66962); (66964, 66965);
    (66967, 66977); (66979, 66993); (66995, 67001); (67003, 67004);
    (68736, 68786); (68800, 68850); (71840, 71903); (93760, 93823);
    (119808, 119892); (119894, 119964); (119966, 119967); (119970, 119970);
    (119973, 119974); (119977, 119980); (119982, 119993); (119995, 119995);
    (119997, 120003); (120005, 120069); (120071, 120074); (120077, 120084);
    (120086, 120092); (120094, 120121); (120123, 120126); (120128, 120132);
    (120134, 120134); (120138, 120144); (120146, 120485); (120488, 120512);
    (120514, 120538); (120540, 120570); (120572, 120596); (120598, 120628);
    (120630, 120654); (120656, 120686); (120688, 120712); (120714, 120744);
    (120746, 120770); (120772, 120779); (122624, 122633); (122635, 122654);
    (125184, 125251); (127280, 127305); (127312, 127337); (127344, 127369) ].

Definition case_ignorable : Z -> bool := in_ranges case_ignorable_ranges.
Definition cased : Z -> bool := in_ranges cased_ranges.

(** The capital sigma, U+03A3, is the one character whose lower case
    depends on its place: the final form U+03C2 when a cased letter
    comes before it and none after it, case-ignorable characters not
    counting, else U+03C3. *)
Fixpoint cased_before (before : pystr) : bool :=
  match before with
  | [] => false
  | c :: rest => if case_ignorable c then cased_before rest else cased c
  end.

Fixpoint none_cased_after (after : pystr) : bool :=
  match after with
  | [] => true
  | c :: rest => if case_ignorable c then none_cased_after rest else negb (cased c)
  end.

(** [before] holds the characters already read, the last one first. *)
Fixpoint lower_from (before s : pystr) : pystr :=
  match s with
  | [] => []
  | c :: s' =>
    (if c =? 0x3A3 then
       [if cased_before before && none_cased_after s' then 0x3C2 else 0x3C3]
     else lower_char c)
    ++ lower_from (c :: before) s'
  end.

Definition str_lower (s : pystr) : pystr := lower_from [] s.

#[export] Instance UnicodeCase : CaseFolding :=
  {| lower := str_lower; lower_nil := eq_refl |}.

End Py.
Import Py.

(* ================================================================== *)
(** * The regular expressions of the sources *)
(* ================================================================== *)

Module Re.

(** The patterns of the sources use literals, character classes, [*],
    [+] and [*?] over one-character classes, and one capturing group.
    A pattern is the list of its atoms. *)
Inductive atom :=
  | One (cls : Z -> bool)        (* one character of the class *)
  | Greedy (cls : Z -> bool)     (* cls*  : longest first *)
  | Lazy (cls : Z -> bool)       (* cls*? : shortest first *)
  | Open                         (* ( of group 1 *)
  | Close.                       (* ) of group 1 *)

Definition regex := list atom.

(** A literal, and [cls+]. *)
Definition lit (w : pystr) : regex := map (fun c => One (Z.eqb c)) w.
Definition plus (cls : Z -> bool) : regex := [One cls; Greedy cls].

(** With re.DOTALL, [.] matches every character. *)
Definition any (_ : Z) : bool := true.
Definition range (lo hi c : Z) : bool := (lo <=? c) && (c <=? hi).
Definition one_of (set : pystr) (c : Z) : bool := has_char c set.

(** What remains of the subject at the two marks of group 1. *)
Definition marks := (option pystr * option pystr)%type.

(** [cls*] and [cls*?] before a continuation [k], which matches what
    follows in the pattern: the greedy star tries the longest run first
    and gives characters back one at a time, the lazy star takes them
    one at a time. *)
Section Stars.
Context {X : Type}.
Variable p : Z -> bool.
Variable k : pystr -> option X.

Fixpoint greedy (s : pystr) : option X :=
  match s with
  | c :: s' =>
    if p c then
      match greedy s' with
      | Some m => Some m
      | None => k s
      end
    else k s
  | [] => k s
  end.

Fixpoint lazily (s : pystr) : option X :=
  match k s with
  | Some m => Some m
  | None =>
    match s with
    | c :: s' => if p c then lazily s' else None
    | [] => None
    end
  end.

End Stars.

(** The backtracking matcher of [re], anchored at the head of [s]: the
    first way of matching in the order the engine tries them.  It
    answers what is left of the subject after the match. *)
Fixpoint match_at (r : regex) (s : pystr) (g : marks) : option (pystr * marks) :=
  match r with
  | [] => Some (s, g)
  | One p :: r' =>
    match s with
    | c :: s' => if p c then match_at r' s' g else None
    | [] => None
    end
  | Greedy p :: r' => greedy p (fun t => match_at r' t g) s
  | Lazy p :: r' => lazily p (fun t => match_at r' t g) s
  | Open :: r' => match_at r' s (Some s, snd g)
  | Close :: r' => match_at r' s (fst g, Some s)
  end.

(** A match object: [start()], [group()], [group(1)], and the subject
    after the match. *)
Record match_obj := {
  m_start : nat;
  m_group0 : pystr;
  m_group1 : option pystr;
  m_rest : pystr
}.

(** The text between two remainders of one subject. *)
Definition between (from to : pystr) : pystr :=
  firstn (length from - length to) from.

Definition group1_of (g : marks) : option pystr :=
  match g with
  | (Some a, Some b) => Some (between a b)
  | _ => None
  end.

(** [re.search(r, s)]: the match at the leftmost position that has one. *)
Fixpoint search_from (r : regex) (pos : nat) (s : pystr) : option match_obj :=
  match match_at r s (None, None) with
  | Some (rest, g) =>
    Some {| m_start := pos; m_group0 := between s rest;
            m_group1 := group1_of g; m_rest := rest |}
  | None =>
    match s with
    | [] => None
    | _ :: s' => search_from r (S pos) s'
    end
  end.

Definition search (r : regex) (s : pystr) : option match_obj := search_from r 0 s.

(** The truth value of what [re.search] returns. *)
Definition found (m : option match_obj) : bool :=
  match m with Some _ => true | None => false end.

(** [re.findall(r, s)] and [re.sub(r, '', s)], for patterns without a
    group that match no empty string (all of the sources' are): the
    non-overlapping matches from left to right. *)
Fixpoint findall_fuel (fuel : nat) (r : regex) (s : pystr) : list pystr :=
  match fuel with
  | O => []
  | S f =>
    match s with
    | [] => []
    | c :: s' =>
      match match_at r s (None, None) with
      | Some (rest, _) =>
        if (length rest <? length s)%nat
        then between s rest :: findall_fuel f r rest
        else findall_fuel f r s'
      | None => findall_fuel f r s'
      end
    end
  end.

Definition findall (r : regex) (s : pystr) : list pystr :=
  findall_fuel (length s) r s.

Fixpoint sub_fuel (fuel : nat) (r : regex) (s : pystr) : pystr :=
  match fuel with
  | O => s
  | S f =>
    match s with
    | [] => []
    | c :: s' =>
      match match_at r s (None, None) with
      | Some (rest, _) =>
        if (length rest <? length s)%nat
        then sub_fuel f r rest
        else c :: sub_fuel f r s'
      | None => c :: sub_fuel f r s'
      end
    end
  end.

(** [re.sub(r, '', s)]. *)
Definition sub_empty (r : regex) (s : pystr) : pystr :=
  sub_fuel (length s) r s.

End Re.

Import Re.

(* ================================================================== *)
(** * hashlib.sha256 and hmac *)
(* ================================================================== *)

Module Sha256.

(** FIPS 180-4, on 32-bit words held in [Z]. *)
Definition w32 (x : Z) : Z := x mod 2 ^ 32.
Definition add32 (x y : Z) : Z := w32 (x + y).
Definition rotr (n x : Z) : Z := Z.lor (Z.shiftr x n) (w32 (Z.shiftl x (32 - n))).
Definition shr (n x : Z) : Z := Z.shiftr x n.
Definition not32 (x : Z) : Z := 2 ^ 32 - 1 - x.

Definition Ch (x y z : Z) : Z := Z.lxor (Z.land x y) (Z.land (not32 x) z).
Definition Maj (x y z : Z) : Z :=
  Z.lxor (Z.lxor (Z.land x y) (Z.land x z)) (Z.land y z).
Definition Sigma0 (x : Z) : Z := Z.lxor (Z.lxor (rotr 2 x) (rotr 13 x)) (rotr 22 x).
Definition Sigma1 (x : Z) : Z := Z.lxor (Z.lxor (rotr 6 x) (rotr 11 x)) (rotr 25 x).
Definition sigma0 (x : Z) : Z := Z.lxor (Z.lxor (rotr 7 x) (rotr 18 x)) (shr 3 x).
Definition sigma1 (x : Z) : Z := Z.lxor (Z.lxor (rotr 17 x) (rotr 19 x)) (shr 10 x).

(** The round constants: the first 32 bits of the fractional parts of
    the cube roots of the first 64 primes. *)
Definition K : list Z :=
  [ 1116352408; 1899447441; 3049323471; 3921009573;
    961987163; 1508970993; 2453635748; 2870763221;
    3624381080; 310598401; 607225278; 1426881987;
    1925078388; 2162078206; 2614888103; 3248222580;
    3835390401; 4022224774; 264347078; 604807628;
    770255983; 1249150122; 1555081692; 1996064986;
    2554220882; 2821834349; 2952996808; 3210313671;
    3336571891; 3584528711; 113926993; 338241895;
    666307205; 773529912; 1294757372; 1396182291;
    1695183700; 1986661051; 2177026350; 2456956037;
    2730485921; 2820302411; 3259730800; 3345764771;
    3516065817; 3600352804; 4094571909; 275423344;
    430227734; 506948616; 659060556; 883997877;
    958139571; 1322822218; 1537002063; 1747873779;
    1955562222; 2024104815; 2227730452; 2361852424;
    2428436474; 2756734187; 3204031479; 3329325298 ].

(** The eight working variables, and the hash value. *)
Record state := St { ha : Z; hb : Z; hc : Z; hd : Z; he : Z; hf : Z; hg : Z; hh : Z }.

(** The initial hash value: the first 32 bits of the fractional parts of
    the square roots of the first 8 primes. *)
Definition H0 : state :=
  St 1779033703 3144134277 1013904242 2773480762
     1359893119 2600822924 528734635 1541459225.

(** Padding: 0x80, zeros up to 56 mod 64, the bit length on 8 bytes. *)
Definition be_bytes (n : nat) (x : Z) : pybytes :=
  map (fun i => (x / 256 ^ Z.of_nat i) mod 256) (rev (seq 0 n)).

Definition pad (msg : pybytes) : pybytes :=
  let l := Z.of_nat (length msg) in
  let k := (55 - l) mod 64 in
  msg ++ [0x80] ++ repeat 0 (Z.to_nat k) ++ be_bytes 8 (8 * l).

Fixpoint be_word (bs : pybytes) : Z :=
  match bs with
  | [] => 0
  | b :: t => b * 256 ^ Z.of_nat (length t) + be_word t
  end.

(** The sixteen words of a 64-byte block. *)
Fixpoint words (n : nat) (bs : pybytes) : list Z :=
  match n with
  | O => []
  | S n' => be_word (firstn 4 bs) :: words n' (skipn 4 bs)
  end.

(** The message schedule, kept with the newest word first. *)
Fixpoint schedule (n : nat) (w : list Z) : list Z :=
  match n with
  | O => w
  | S n' =>
    let x := add32 (add32 (sigma1 (nth 1 w 0)) (nth 6 w 0))
                   (add32 (sigma0 (nth 14 w 0)) (nth 15 w 0)) in
    schedule n' (x :: w)
  end.

Definition round (s : state) (kw : Z * Z) : state :=
  let '(k, w) := kw in
  let t1 := add32 (add32 (add32 (hh s) (Sigma1 (he s)))
                         (add32 (Ch (he s) (hf s) (hg s)) k)) w in
  let t2 := add32 (Sigma0 (ha s)) (Maj (ha s) (hb s) (hc s)) in
  St (add32 t1 t2) (ha s) (hb s) (hc s) (add32 (hd s) t1) (he s) (hf s) (hg s).

Definition compress (h : state) (block : pybytes) : state :=
  let w := rev (schedule 48 (rev (words 16 block))) in
  let s := fold_left round (combine K w) h in
  St (add32 (ha h) (ha s)) (add32 (hb h) (hb s)) (add32 (hc h) (hc s))
     (add32 (hd h) (hd s)) (add32 (he h) (he s)) (add32 (hf h) (hf s))
     (add32 (hg h) (hg s)) (add32 (hh h) (hh s)).

Fixpoint blocks (n : nat) (h : state) (bs : pybytes) : state :=
  match n with
  | O => h
  | S n' => blocks n' (compress h (firstn 64 bs)) (skipn 64 bs)
  end.

(** [hashlib.sha256(msg).digest()]. *)
Definition digest (msg : pybytes) : pybytes :=
  let p := pad msg in
  let h := blocks (length p / 64) H0 p in
  flat_map (be_bytes 4) [ha h; hb h; hc h; hd h; he h; hf h; hg h; hh h].

End Sha256.

Module Hmac.

(** [hmac.new(key, msg, hashlib.sha256)]: RFC 2104 with a 64-byte block. *)
Definition block_key (key : pybytes) : pybytes :=
  let k := if (64 <? length key)%nat then Sha256.digest key else key in
  k ++ repeat 0 (64 - length k).

Definition hmac_sha256 (key msg : pybytes) : pybytes :=
  let k := block_key key in
  let inner := Sha256.digest (map (Z.lxor 0x36) k ++ msg) in
  Sha256.digest (map (Z.lxor 0x5c) k ++ inner).

(** [.hexdigest()]: two lower-case hexadecimal digits a byte. *)
Definition hex_digit (n : Z) : Z := if n <? 10 then 48 + n else 87 + n.

Definition hexlify (bs : pybytes) : pystr :=
  flat_map (fun b => [hex_digit (b / 16); hex_digit (b mod 16)]) bs.

Definition hexdigest (key msg : pybytes) : pystr := hexlify (hmac_sha256 key msg).

(** [hmac.compare_digest(a, b)] on two [str]: equality, read in constant
    time; a character outside ASCII on either side is a TypeError
    ([None]). *)
Definition is_ascii (s : pystr) : bool := forallb (fun c => (0 <=? c) && (c <? 128)) s.

Definition compare_digest (a b : pystr) : option bool :=
  if is_ascii a && is_ascii b then Some (str_eqb a b) else None.

End Hmac.

(* ================================================================== *)
(** * Exceptions, the outside world, and the monad of the embedding *)
(* ================================================================== *)

Module Runtime.

(** The exceptions the modelled code can meet; all derive from
    [Exception], so that [except Exception] catches each of them. *)
Inductive exn :=
  | TypeError
  | AttributeError
  | KeyError
  | IndexError
  | LookupError
  | UnicodeEncodeError
  | BinasciiError
  | JSONDecodeError
  | RequestTimeout
  | RequestException.

Inductive res (A : Type) : Type :=
  | Ok (a : A)
  | Raise (e : exn).
Arguments Ok {A} a.
Arguments Raise {A} e.

Inductive level := LInfo | LWarning | LError.

(** The calls that leave the process, as the trace records them. *)
Inductive event :=
  | EvLog (lvl : level)
  | EvB64Decode (arg : pystr)
  | EvMimeParse (raw : pybytes)
  | EvHttpPost (prompt : pystr) (max_tokens : Z).

(** What one [requests.post] to the completion endpoint comes back with:
    an exception of [requests], or a status code and the body.  The body
    is read as section 6 of the specification types it,
    [{choices: [{message: {content}}]}]: the list of the contents of its
    choices, each a string or [None] for a content that is null; the
    body itself is [None] when it is not of that shape. *)
Inductive http_outcome :=
  | HttpRaises (e : exn)
  | HttpReply (status : Z) (choices : option (list (option pystr))).

Record World := {
  replies : list http_outcome;   (* the answers the endpoint will give *)
  clock : Z;                     (* int(time.time()) *)
  dice : list Z;                 (* the draws of random *)
  trace : list event             (* oldest event first *)
}.

Definition M (A : Type) : Type := World -> res A * World.

Definition ret {A} (a : A) : M A := fun w => (Ok a, w).

Definition bind {A B} (m : M A) (k : A -> M B) : M B :=
  fun w =>
    match m w with
    | (Ok a, w') => k a w'
    | (Raise e, w') => (Raise e, w')
    end.

Definition raise {A} (e : exn) : M A := fun w => (Raise e, w).

(** [try: m  except Exception as e: h e]. *)
Definition try_except {A} (m : M A) (h : exn -> M A) : M A :=
  fun w =>
    match m w with
    | (Ok a, w') => (Ok a, w')
    | (Raise e, w') => h e w'
    end.

Definition emit (e : event) : M unit :=
  fun w => (Ok tt, {| replies := replies w; clock := clock w; dice := dice w;
                      trace := trace w ++ [e] |}).

Definition lift {A} (r : res A) : M A := fun w => (r, w).

Definition lift_opt {A} (e : exn) (o : option A) : M A :=
  match o with
  | Some a => ret a
  | None => raise e
  end.

(** [requests.post(...)]: the next answer of the endpoint; a world with
    none left refuses the connection. *)
Definition http_post (prompt : pystr) (max_tokens : Z) : M http_outcome :=
  fun w =>
    let w' := {| replies := tl (replies w); clock := clock w; dice := dice w;
                 trace := trace w ++ [EvHttpPost prompt max_tokens] |} in
    match replies w with
    | r :: _ => (Ok r, w')
    | [] => (Ok (HttpRaises RequestException), w')
    end.

(** [int(time.time())]. *)
Definition time_now : M Z := fun w => (Ok (clock w), w).

(** [random.randint(lo, hi)]. *)
Definition randint (lo hi : Z) : M Z :=
  fun w =>
    let d := match dice w with d :: _ => d | [] => 0 end in
    (Ok (lo + d mod (hi - lo + 1)),
     {| replies := replies w; clock := clock w; dice := tl (dice w);
        trace := trace w |}).

(** The world after one more line of log. *)
Definition logged (lvl : level) (w : World) : World :=
  snd (emit (EvLog lvl) w).

(** The events a run added to the trace. *)
Definition new_events (w w' : World) : list event :=
  skipn (length (trace w)) (trace w').

End Runtime.
Import Runtime.

Declare Scope py_scope.
Delimit Scope py_scope with py.
Notation "x <- m ;; k" := (bind m (fun x => k))
  (at level 61, m at next level, right associativity) : py_scope.
Notation "m ;; k" := (bind m (fun _ => k))
  (at level 61, right associativity) : py_scope.
Local Open Scope py_scope.

(* ================================================================== *)
(** * config.py *)
(* ================================================================== *)

Record Config := {
  INBOUND_SECRET : pystr;
  MAX_EMAIL_CONTENT_LENGTH : Z;
  AI_API_KEY : pystr;
  AI_MAX_TOKENS : Z;
  SES_FROM_EMAIL : pystr
}.

(** The defaults of [Config]. *)
Definition default_config : Config := {|
  INBOUND_SECRET := u "jsdiaojdisajdiofhu9u83huiwu9w8ug8";
  MAX_EMAIL_CONTENT_LENGTH := 100000;
  AI_API_KEY := u "kuangren777";
  AI_MAX_TOKENS := 10000;
  SES_FROM_EMAIL := u "ai@kr777.top"
|}.

(* ================================================================== *)
(** * email_processor.py *)
(* ================================================================== *)

Module EmailProcessor.

(** One part of a parsed message, as the [email] library answers for it. *)
Record Part := {
  content_type : pystr;                 (* get_content_type() *)
  content_disposition : option pystr;   (* get_content_disposition() *)
  filename : option pystr;              (* get_filename() *)
  content : res pystr;                  (* get_content() *)
  payload_text : res pystr;
    (* (get_payload(decode=True) or b'').decode(get_content_charset()
       or 'utf-8', errors='replace') *)
  payload_size : res Z                  (* len(get_payload(decode=True) or b'') *)
}.

(** An [EmailMessage]: its headers, its own part, and its subparts when
    it is multipart.  A header is its name and what the policy makes of
    its value when the header is read: the text, or the exception the
    header parser raises on a malformed value. *)
#[warnings="-register-all"]
Inductive EmailMessage :=
  | Message (headers : list (pystr * res pystr)) (part : Part)
            (subparts : option (list EmailMessage)).

Definition headers_of (m : EmailMessage) := let 'Message h _ _ := m in h.
Definition part_of (m : EmailMessage) := let 'Message _ p _ := m in p.
Definition is_multipart (m : EmailMessage) : bool :=
  let 'Message _ _ s := m in match s with Some _ => true | None => false end.

(** [msg.walk()]: the message, then its subparts, depth first. *)
Fixpoint walk (m : EmailMessage) : list Part :=
  let 'Message _ p s := m in
  p :: match s with
       | Some l => flat_map walk l
       | None => []
       end.

(** [msg.get(name, default)]: header names compare without case; the
    value of the first header of that name is parsed, which can raise. *)
Definition get_header (m : EmailMessage) (name default : pystr) : res pystr :=
  match find (fun kv => str_eqb (str_lower (fst kv)) (str_lower name))
             (headers_of m) with
  | Some kv => snd kv
  | None => Ok default
  end.

(** [bool(msg)] is [len(msg) > 0], and [len] counts the headers. *)
Definition msg_truthy (m : EmailMessage) : bool :=
  match headers_of m with [] => false | _ => true end.

(** The two calls into the standard library that read the payload. *)
Class EmailLib := {
  b64decode : pystr -> res pybytes;          (* base64.b64decode *)
  parsebytes : pybytes -> res EmailMessage   (* BytesParser(policy).parsebytes *)
}.

Record Attachment := {
  att_filename : pystr;
  att_content_type : pystr;
  att_size : Z
}.

Record ProcessedEmail := {
  from_email : pystr;
  to_email : pystr;
  subject : pystr;
  date : pystr;
  message_id : pystr;
  text_content : option pystr;
  html_content : option pystr;
  attachments : list Attachment;
  raw_size : Z
}.

Section Processor.
Context {lib : EmailLib}.
Variable cfg : Config.

Definition verify_signature (raw_b64 sig_hex : pystr) : M bool :=
  try_except
    (key <- lift_opt UnicodeEncodeError (encode (INBOUND_SECRET cfg)) ;;
     msg <- lift_opt UnicodeEncodeError (encode raw_b64) ;;
     let mac := Hmac.hexdigest key msg in
     lift_opt TypeError (Hmac.compare_digest mac sig_hex))
    (fun _ => emit (EvLog LError) ;; ret false).

Definition parse_raw_email (raw_b64 : pystr) : M (option EmailMessage) :=
  try_except
    (emit (EvB64Decode raw_b64) ;;
     raw_bytes <- lift (b64decode raw_b64) ;;
     emit (EvMimeParse raw_bytes) ;;
     msg <- lift (parsebytes raw_bytes) ;;
     ret (Some msg))
    (fun _ => emit (EvLog LError) ;; ret None).

(** The body of one branch of the loop of [extract_text_parts]: what the
    part adds to its list. *)
Definition part_text (p : Part) : M (list pystr) :=
  match content p with
  | Ok c => ret (if truthy c then [c] else [])
  | Raise _ =>
    match payload_text p with
    | Ok c => ret (if truthy c then [c] else [])
    | Raise _ => emit (EvLog LWarning) ;; ret []
    end
  end.

Fixpoint text_loop (parts : list Part) (plain html : list pystr)
  : M (list pystr * list pystr) :=
  match parts with
  | [] => ret (plain, html)
  | p :: rest =>
    if match content_disposition p with
       | Some d => str_eqb d (u "attachment")
       | None => false
       end
    then text_loop rest plain html
    else if str_eqb (content_type p) (u "text/plain") then
      c <- part_text p ;; text_loop rest (plain ++ c) html
    else if str_eqb (content_type p) (u "text/html") then
      c <- part_text p ;; text_loop rest plain (html ++ c)
    else text_loop rest plain html
  end.

(** [x or None] for a string. *)
Definition or_none (s : pystr) : option pystr :=
  match s with [] => None | _ => Some s end.

Definition joined (parts : list pystr) : option pystr :=
  or_none (join [nl; nl] (filter (fun p => truthy (strip p)) parts)).

Definition extract_text_parts (msg : EmailMessage)
  : M (option pystr * option pystr) :=
  if is_multipart msg then
    ph <- text_loop (walk msg) [] [] ;;
    ret (joined (fst ph), joined (snd ph))
  else
    let p := part_of msg in
    let finish (c : pystr) : M (option pystr * option pystr) :=
      if str_eqb (content_type p) (u "text/plain") then ret (Some c, None)
      else if str_eqb (content_type p) (u "text/html") then ret (None, Some c)
      else ret (None, None) in
    match content p with
    | Ok c => finish c
    | Raise _ =>
      match payload_text p with
      | Ok c => finish c
      | Raise _ => emit (EvLog LError) ;; ret (None, None)
      end
    end.

(** The loop of [extract_attachments]; an exception ends it and keeps
    what was collected. *)
Fixpoint attachment_loop (parts : list Part) (acc : list Attachment)
  : M (list Attachment) :=
  match parts with
  | [] => ret acc
  | p :: rest =>
    if match content_disposition p with
       | Some d => str_eqb d (u "attachment")
       | None => false
       end
    then
      if truthy_opt (filename p) then
        match payload_size p with
        | Ok n =>
          attachment_loop rest
            (acc ++ [{| att_filename := match filename p with Some f => f | None => [] end;
                        att_content_type := content_type p;
                        att_size := n |}])
        | Raise _ => emit (EvLog LWarning) ;; ret acc
        end
      else attachment_loop rest acc
    else attachment_loop rest acc
  end.

Definition extract_attachments (msg : EmailMessage) : M (list Attachment) :=
  if negb (is_multipart msg) then ret []
  else attachment_loop (walk msg) [].

(** [text and len(text) > max] then [text[:max] + marker]. *)
Definition truncate (text : option pystr) : option pystr :=
  match text with
  | Some t =>
    if truthy t && (MAX_EMAIL_CONTENT_LENGTH cfg <? len t)
    then Some (slice_to (MAX_EMAIL_CONTENT_LENGTH cfg) t ++ u "...[内容已截断]")
    else Some t
  | None => None
  end.

Definition process_email (raw_b64 signature : pystr) : M (option ProcessedEmail) :=
  try_except
    (ok <- verify_signature raw_b64 signature ;;
     if negb ok then emit (EvLog LWarning) ;; ret None
     else
       parsed <- parse_raw_email raw_b64 ;;
       match parsed with
       | None => emit (EvLog LError) ;; ret None
       | Some msg =>
         if negb (msg_truthy msg) then emit (EvLog LError) ;; ret None
         else
           mail_from <- lift (get_header msg (u "From") []) ;;
           rcpt_to <- lift (get_header msg (u "To") []) ;;
           subj <- lift (get_header msg (u "Subject") (u "无主题")) ;;
           mid <- lift (get_header msg (u "Message-ID") []) ;;
           dat <- lift (get_header msg (u "Date") []) ;;
           texts <- extract_text_parts msg ;;
           let text_plain := truncate (fst texts) in
           let text_html := truncate (snd texts) in
           atts <- extract_attachments msg ;;
           emit (EvB64Decode raw_b64) ;;
           raw_bytes <- lift (b64decode raw_b64) ;;
           emit (EvLog LInfo) ;;
           ret (Some {| from_email := mail_from; to_email := rcpt_to;
                        subject := subj; date := dat; message_id := mid;
                        text_content := text_plain; html_content := text_html;
                        attachments := atts; raw_size := len raw_bytes |})
       end)
    (fun _ => emit (EvLog LError) ;; ret None).

End Processor.

End EmailProcessor.

(* ================================================================== *)
(** * utils.py *)
(* ================================================================== *)

Module Utils.

Section WithCase.
Context {cf : CaseFolding}.

Definition forwarded_indicators : list pystr :=
  [u "fwd:"; u "fw:"; u "转发:"; u "转："; u "forward:"; u "forwarded:"].

Definition content_indicators : list pystr :=
  [u "forwarded message"; u "转发的邮件"; u "转发邮件";
   u "original message"; u "原始邮件"; u "---------- forwarded message";
   u "from:"; u "sent:"; u "to:"; u "subject:"].

Definition is_forwarded_email (subject content : pystr) : bool :=
  if negb (truthy subject) && negb (truthy content) then false
  else
    let subject_lower := if truthy subject then lower subject else [] in
    if existsb (fun indicator => contains indicator subject_lower)
               forwarded_indicators
    then true
    else if truthy content then
      let content_lower := lower content in
      let header_count :=
        len (filter (fun indicator => contains indicator content_lower)
                    (slice_last 4 content_indicators)) in
      if 2 <=? header_count then true
      else existsb (fun indicator => contains indicator content_lower)
                   (slice_to (-4) content_indicators)
    else false.

End WithCase.

End Utils.

(* ================================================================== *)
(** * ai_analyzer.py *)
(* ================================================================== *)

Module AiAnalyzer.

(** The analysis dictionary, with the keys and the value types of the
    AnalysisResult of the specification; a key may be absent, which is
    what the [.get(key, default)] of the sources provide for. *)
Record Analysis := {
  intent : option pystr;
  urgency : option pystr;
  can_auto_reply : option bool;
  chinese_content : option pystr;
  todo_items : option (list pystr);
  main_topic : option pystr;
  requires_info : option pystr;
  sentiment : option pystr;
  detected_language : option pystr;
  need_reply : option bool;
  reply_content : option pystr;
  sender : option pystr
}.

(** [d.get(key, default)]. *)
Definition get {A} (field : option A) (default : A) : A :=
  match field with Some v => v | None => default end.

(** What [json.loads] produces: an object, read through the keys above,
    or a value that is no object (list, string, number, null). *)
Inductive parsed :=
  | JObject (a : Analysis)
  | JOther.

(** [json.loads]; [None] stands for json.JSONDecodeError. *)
Class JsonLib := {
  json_loads : pystr -> option parsed
}.

(** The patterns of the module. *)
Definition cjk_re : regex := [One (range 0x4e00 0x9fff)].
Definition latin_re : regex := [One (fun c => range 97 122 c || range 65 90 c)].
Definition french_re : regex :=
  [One (one_of (u "àáâãäåæçèéêëìíîïðñòóôõöøùúûüýþÿ"))].
Definition german_re : regex := [One (one_of (u "äöüß"))].
Definition spanish_re : regex := [One (one_of (u "áéíóúñü"))].
(** [```json\s*\n(.*?)\n```] with re.DOTALL. *)
Definition fence_re : regex :=
  lit (u "```json") ++ [Greedy isspace; One (Z.eqb nl); Open; Lazy any; Close]
  ++ lit (nl :: u "```").
(** [\{.*\}] with re.DOTALL. *)
Definition brace_re : regex := [One (Z.eqb 123); Greedy any; One (Z.eqb 125)].
(** [<[^>]+>]. *)
Definition tag_re : regex :=
  [One (Z.eqb 60)] ++ plus (fun c => negb (c =? 62)) ++ [One (Z.eqb 62)].

Definition q (s : string) : pystr := dq ++ u s ++ dq.

Section Analyzer.
Context {cf : CaseFolding} {js : JsonLib}.
Variable cfg : Config.

Definition detect_language (text : pystr) : pystr :=
  if negb (truthy text) then u "zh"
  else
    let chinese_chars := len (findall cjk_re text) in
    let english_chars := len (findall latin_re text) in
    if english_chars <? chinese_chars then u "zh"
    else if 0 <? english_chars then u "en"
    else if found (search french_re (lower text)) then u "fr"
    else if found (search german_re (lower text)) then u "de"
    else if found (search spanish_re (lower text)) then u "es"
    else u "en".

Definition _build_analysis_prompt (content language : pystr) : pystr :=
  u "你是一个邮件助手，当我给你邮件的时候，你需要根据我给你的指令（如有）：
1. 提取出这个邮件是要干什么的，目前的进展有哪些（中文回答）
2. 判断是否需要回信（中文回答）
3. 如果需要我提供的信息，可以先问我，我会提供。当你拿到可以写回信的信息的时候，你可以开始写作。
4. 如果需要回信，请给出回信的具体内容。（英文）
我也会给你提要求，需要你帮我写邮件。

邮件内容：
" ++ content ++
    u "

请严格按照以下JSON格式返回分析结果，必须用```json ```包围：

```json
{
  " ++ q "intent" ++ u ": " ++ q "邮件意图（inquiry/request/complaint/meeting/order/support/other）" ++ u ",
  " ++ q "urgency" ++ u ": " ++ q "紧急程度（low/medium/high）" ++ u ",
  " ++ q "can_auto_reply" ++ u ": " ++ q "是否可以自动回复（true/false）" ++ u ",
  " ++ q "chinese_content" ++ u ": " ++ q "邮件的中文摘要和目的分析" ++ u ",
  " ++ q "todo_items" ++ u ": [" ++ q "需要完成的事项列表（需要尽可能详细）" ++ u "],
  " ++ q "main_topic" ++ u ": " ++ q "主要话题" ++ u ",
  " ++ q "requires_info" ++ u ": " ++ q "如果不能自动回复，需要什么额外信息，需要尽可能详细" ++ u ",
  " ++ q "sentiment" ++ u ": " ++ q "情感倾向（positive/neutral/negative）" ++ u ",
  " ++ q "need_reply" ++ u ": " ++ q "是否需要回信（true/false）" ++ u ",
  " ++ q "reply_content" ++ u ": " ++ q "如果需要回信，提供英文回信内容，如果不需要则为空字符串" ++ u "
}
```

只返回JSON格式的内容，用```json ```包围，不要其他文字。".

Definition _call_ai_api (prompt : pystr) : M (option pystr) :=
  if negb (truthy (AI_API_KEY cfg)) then
    emit (EvLog LWarning) ;; ret None
  else
    try_except
      (response <- http_post prompt (AI_MAX_TOKENS cfg) ;;
       match response with
       | HttpRaises e => raise e
       | HttpReply status_code body =>
         if status_code =? 200 then
           choices <- lift_opt JSONDecodeError body ;;
           first <- lift_opt IndexError (hd_error choices) ;;
           ret first
         else emit (EvLog LError) ;; ret None
       end)
      (fun _ => emit (EvLog LError) ;; ret None).

Definition loads (text : pystr) : M parsed :=
  lift_opt JSONDecodeError (json_loads text).

(** The text [_parse_ai_response] hands to [json.loads]. *)
Definition json_candidate (response : pystr) : pystr :=
  match search fence_re response with
  | Some json_code_block_match =>
    strip (get (m_group1 json_code_block_match) [])
  | None =>
    match search brace_re response with
    | Some json_match => m_group0 json_match
    | None => response
    end
  end.

Definition _parse_ai_response (response : pystr) : M parsed :=
  try_except
    (match search fence_re response with
     | Some json_code_block_match =>
       let json_content := strip (get (m_group1 json_code_block_match) []) in
       loads json_content
     | None =>
       match search brace_re response with
       | Some json_match => loads (m_group0 json_match)
       | None => loads response
       end
     end)
    (fun e =>
       match e with
       | JSONDecodeError => emit (EvLog LError) ;; raise e
       | _ => raise e
       end).

Definition _get_default_analysis (content language : pystr) : Analysis := {|
  intent := Some (u "other");
  urgency := Some (u "medium");
  can_auto_reply := Some false;
  chinese_content :=
    Some (if str_eqb language (u "zh") then slice_to 100 content
          else u "需要人工翻译");
  todo_items := Some [u "人工处理邮件"];
  main_topic := Some (u "未知主题");
  requires_info := Some (u "需要人工分析");
  sentiment := Some (u "neutral");
  detected_language := Some language;
  need_reply := Some true;
  reply_content := Some [];
  sender := None
|}.

(** [analysis['detected_language'] = l; analysis['sender'] = s]: item
    assignment, a TypeError on what is no dictionary. *)
Definition set_language_and_sender (p : parsed) (l s : pystr) : M Analysis :=
  match p with
  | JObject a =>
    ret {| intent := intent a; urgency := urgency a;
           can_auto_reply := can_auto_reply a;
           chinese_content := chinese_content a;
           todo_items := todo_items a; main_topic := main_topic a;
           requires_info := requires_info a; sentiment := sentiment a;
           detected_language := Some l;
           need_reply := need_reply a; reply_content := reply_content a;
           sender := Some s |}
  | JOther => raise TypeError
  end.

Definition analyze_email_content (email_content sender : pystr) : M Analysis :=
  if negb (truthy email_content) then
    ret (_get_default_analysis email_content (u "zh"))
  else
    let detected_language := detect_language email_content in
    let prompt := _build_analysis_prompt email_content detected_language in
    ai_response <- _call_ai_api prompt ;;
    let fallback := ret (_get_default_analysis email_content detected_language) in
    if truthy_opt ai_response then
      found_analysis <-
        try_except
          (analysis <- _parse_ai_response (get ai_response []) ;;
           analysis <- set_language_and_sender analysis detected_language sender ;;
           ret (Some analysis))
          (fun _ => emit (EvLog LError) ;; ret None) ;;
      match found_analysis with
      | Some analysis => ret analysis
      | None => fallback
      end
    else fallback.

Definition _determine_reply_language (analysis : Analysis)
                                     (is_forwarded_email : bool) : pystr :=
  if is_forwarded_email then get (detected_language analysis) (u "zh")
  else u "zh".

Definition _clean_loop_step (st : list pystr * bool) (line : pystr)
  : list pystr * bool :=
  let '(cleaned_lines, prev_empty) := st in
  let line := strip line in
  if negb (truthy line) then
    (if negb prev_empty then cleaned_lines ++ [[]] else cleaned_lines, true)
  else (cleaned_lines ++ [line], false).

Fixpoint drop_empty (lines : list pystr) : list pystr :=
  match lines with
  | [] :: rest => drop_empty rest
  | _ => lines
  end.

Definition _clean_original_content (content : pystr) : pystr :=
  if negb (truthy content) then []
  else
    let content := sub_empty tag_re content in
    let lines := split nl content in
    let cleaned_lines := fst (fold_left _clean_loop_step lines ([], false)) in
    let cleaned_lines := drop_empty cleaned_lines in
    let cleaned_lines := rev (drop_empty (rev cleaned_lines)) in
    join [nl] cleaned_lines.

Definition quote_header (language : pystr) : pystr :=
  if str_eqb language (u "en") then u "

--- Original Message ---
"
  else u "

--- 原邮件 ---
".

Definition _add_original_quote (reply_body original_content language : pystr)
  : pystr :=
  if negb (truthy original_content) || negb (truthy (strip original_content))
  then reply_body
  else
    let cleaned_content := _clean_original_content original_content in
    let quoted_lines :=
      map (fun line => u "> " ++ line) (split nl cleaned_content) in
    let quoted_content := join [nl] quoted_lines in
    reply_body ++ quote_header language ++ quoted_content.

Definition _generate_detailed_info_request (analysis : Analysis)
    (main_topic requires_info : pystr) : pystr :=
  let intent := get (intent analysis) (u "未知") in
  let urgency := get (urgency analysis) (u "normal") in
  let detail_text :=
    u "根据我们的AI智能分析系统判断，您的邮件属于'" ++ intent ++
    u "'类型，紧急程度为'" ++ urgency ++ u "'。" in
  if str_eqb urgency (u "high") then
    detail_text ++ u "鉴于此事的紧急性，我们已将您的邮件标记为高优先级处理。"
  else if str_eqb urgency (u "low") then
    detail_text ++ u "我们会按照标准流程为您处理此事。"
  else detail_text.

(** [enumerate(items, 1)] rendered as [f"{i}. {item}"]. *)
Fixpoint numbered (i : Z) (items : list pystr) : list pystr :=
  match items with
  | [] => []
  | item :: rest => (str_of_int i ++ u ". " ++ item) :: numbered (i + 1) rest
  end.

Definition _generate_detailed_auto_reply (analysis : Analysis)
    (main_topic summary : pystr) : pystr :=
  let intent := get (intent analysis) (u "未知") in
  let urgency := get (urgency analysis) (u "normal") in
  let todo_items := get (todo_items analysis) [] in
  let detail_parts :=
    [u "经过我们的AI智能分析系统处理，您的邮件已被识别为'" ++ intent ++ u "'类型。"]
    ++ (if truthy summary then [u "邮件内容摘要：" ++ slice_to 300 summary] else [])
    ++ (match todo_items with
        | [] => []
        | _ => u "我们已为您的请求生成以下处理要点：" :: numbered 1 (slice_to 5 todo_items)
        end)
    ++ (if str_eqb urgency (u "high") then
          [u "⚠️ 重要提醒：您的邮件已被标记为高优先级，我们会加急处理。"]
        else if str_eqb urgency (u "medium") then
          [u "📋 处理说明：您的邮件为中等优先级，我们会在标准时间内处理。"]
        else []) in
  join [nl; nl] detail_parts.

Definition _format_required_info (requires_info : pystr) : pystr :=
  if negb (truthy requires_info) then u "• 更多详细信息"
  else if has_char 44 requires_info then
    let items := map strip (split 44 requires_info) in
    join [nl] (map (fun item => u "• " ++ item) (filter truthy items))
  else u "• " ++ requires_info.

Definition _generate_ticket_id : M pystr :=
  now <- time_now ;;
  let timestamp := str_of_int now in
  draw <- randint 1000 9999 ;;
  let random_suffix := str_of_int draw in
  ret (u "TK" ++ slice_last 6 timestamp ++ random_suffix).

Definition _generate_info_request_reply (analysis : Analysis)
    (subject original_content language : pystr) (is_forwarded_email : bool)
  : M (pystr * pystr) :=
  let requires_info := get (requires_info analysis) (u "更多详细信息") in
  let main_topic := get (main_topic analysis) (u "您的请求") in
  let '(reply_subject, reply_body) :=
    if str_eqb language (u "en") && is_forwarded_email then
      (u "Re: " ++ subject ++ u " - Additional Information Needed",
       u "Dear Sender,

Thank you for your email regarding " ++
    dq ++
    main_topic ++
    dq ++
    u ".

To better assist you, we need some additional information: " ++
    requires_info ++
    u "

Could you please provide these details so we can give you a more accurate response?

Best regards,
AI Assistant
" ++
    SES_FROM_EMAIL cfg)
    else
      let detailed_info :=
        _generate_detailed_info_request analysis main_topic requires_info in
      (u "Re: " ++ subject ++ u " - 需要补充信息",
       u "您好！

感谢您关于" ++
    dq ++
    main_topic ++
    dq ++
    u "的邮件。我们已仔细审阅了您的来信内容。

" ++
    detailed_info ++
    u "

为了能够为您提供最准确、最有针对性的解决方案，我们需要您提供以下补充信息：

" ++
    _format_required_info requires_info ++
    u "

请您在回复邮件时详细提供上述信息。我们的技术团队会根据您提供的具体情况，为您制定个性化的解决方案。

如果您在提供信息时遇到任何困难，或者有其他相关问题，请随时与我们联系。我们承诺会在收到您的详细信息后24小时内给出专业回复。

此致
敬礼！

AI智能助手
技术支持团队
ai@kr777.top

---
本邮件由AI智能系统自动生成，如需人工客服协助，请在邮件中注明" ++
    q "转人工客服" ++
    u "。") in
  let reply_body := _add_original_quote reply_body original_content language in
  ret (reply_subject, reply_body).

Definition _generate_auto_reply (analysis : Analysis)
    (subject original_content language : pystr) (is_forwarded_email : bool)
  : M (pystr * pystr) :=
  let main_topic := get (main_topic analysis) (u "您的请求") in
  let summary := get (chinese_content analysis) [] in
  reply <-
    (if str_eqb language (u "en") && is_forwarded_email then
       let shown :=
         if truthy summary then slice_to 200 summary
         else u "We will process your request accordingly." in
       ret (u "Re: " ++ subject,
            u "Dear Sender,

Thank you for your email regarding " ++
    dq ++
    main_topic ++
    dq ++
    u ".

We have received and reviewed your message. " ++
    shown ++
    u "

We will get back to you soon.

Best regards,
AI Assistant
ai@kr777.top")
     else
       let detailed_response :=
         _generate_detailed_auto_reply analysis main_topic summary in
       ticket <- _generate_ticket_id ;;
       ret (u "Re: " ++ subject,
            u "您好！

感谢您关于" ++
    dq ++
    main_topic ++
    dq ++
    u "的邮件。我们已收到并仔细审阅了您的来信。

" ++
    detailed_response ++
    u "

我们的处理流程如下：
1. 邮件内容分析和分类（已完成）
2. 相关部门分配和评估（进行中）
3. 制定详细解决方案（24小时内）
4. 专业回复和后续跟进（48小时内）

在处理您的请求期间，如果您有任何补充信息或紧急情况，请随时回复此邮件。我们会优先处理您的后续来信。

我们承诺为您提供最专业、最及时的服务。感谢您对我们的信任与支持。

此致
敬礼！

AI智能助手
客户服务中心
ai@kr777.top

---
邮件处理编号：" ++
    ticket ++
    u "
如需查询处理进度，请在回复中提供此编号。")) ;;
  let reply_body := _add_original_quote (snd reply) original_content language in
  ret (fst reply, reply_body).

Definition generate_reply (analysis : Analysis)
    (original_subject original_content : pystr) (is_forwarded_email : bool)
  : M (pystr * pystr) :=
  let reply_language := _determine_reply_language analysis is_forwarded_email in
  if truthy_opt (reply_content analysis) && get (need_reply analysis) false then
    let reply_subject := u "Re: " ++ original_subject in
    let reply_with_quote :=
      _add_original_quote (get (reply_content analysis) []) original_content
                          reply_language in
    ret (reply_subject, reply_with_quote)
  else if get (can_auto_reply analysis) false then
    _generate_auto_reply analysis original_subject original_content
                         reply_language is_forwarded_email
  else
    _generate_info_request_reply analysis original_subject original_content
                                 reply_language is_forwarded_email.

End Analyzer.

End AiAnalyzer.

(* ================================================================== *)
(** * trans.py *)
(* ================================================================== *)

Module Trans.
Import EmailProcessor.

(** The three dictionaries [translate_email] can return. *)
Inductive TranslationResult :=
  | SameLanguage (original_language target_language translated_subject : pystr)
                 (translated_content : option pystr) (message : pystr)
  | Translated (original_language target_language original_subject : pystr)
               (original_content : option pystr)
               (translated_subject translated_content : option pystr)
               (from_email to_email message_id : pystr)
  | Failure (error : exn) (original_subject : pystr)
            (original_content : option pystr).

Definition success (r : TranslationResult) : bool :=
  match r with Failure _ _ _ => false | _ => true end.

(** [len(x)] of an [Optional[str]]: a TypeError on [None]. *)
Definition py_len (x : option pystr) : res Z :=
  match x with
  | Some s => Ok (len s)
  | None => Raise TypeError
  end.

(** [chinese_chars / total_chars > 0.3] on floats.  The quotient of two
    ints is the double nearest to the exact ratio, and [0.3] is the
    double 5404319552844595 / 2^54; the quotient is above it exactly
    when the ratio reaches the midpoint to the next double, which
    rounds upwards: 10808639105689191 / 2^55. *)
Definition ratio_gt_03 (chinese_chars total_chars : Z) : bool :=
  10808639105689191 * total_chars <=? chinese_chars * 2 ^ 55.

Definition lang_map : list (pystr * pystr) :=
  [(u "zh", u "中文"); (u "en", u "英文"); (u "ja", u "日文"); (u "ko", u "韩文");
   (u "fr", u "法文"); (u "de", u "德文"); (u "es", u "西班牙文"); (u "ru", u "俄文")].

Definition lang_name (code : pystr) : pystr :=
  match find (fun kv => str_eqb (fst kv) code) lang_map with
  | Some kv => snd kv
  | None => code
  end.

Section Translator.
Context {cf : CaseFolding}.
Variable cfg : Config.

Definition _detect_language (text : option pystr) : pystr :=
  match text with
  | None | Some [] => u "unknown"
  | Some text =>
    let chinese_chars := len (filter (range 0x4e00 0x9fff) text) in
    let total_chars := len (remove_char nl (remove_char 32 text)) in
    if total_chars =? 0 then u "unknown"
    else if ratio_gt_03 chinese_chars total_chars then u "zh"
    else if existsb (fun char => has_char char (lower text))
                    (u "abcdefghijklmnopqrstuvwxyz")
    then u "en"
    else u "unknown"
  end.

Definition _translate_text (text : option pystr) (source_lang target_lang : pystr)
  : M (option pystr) :=
  match text with
  | None => ret text
  | Some text =>
    if negb (truthy text) || negb (truthy (strip text)) then ret (Some text)
    else
      let source_name := lang_name source_lang in
      let target_name := lang_name target_lang in
      let prompt :=
        u "请将以下" ++
    source_name ++
    u "文本翻译成" ++
    target_name ++
    u "，保持原文的语气、格式和专业术语。只返回翻译结果，不要添加任何解释或说明。

原文：
" ++
    text ++
    u "

翻译：" in
      try_except
        (response <- http_post prompt
                       (Z.min (AI_MAX_TOKENS cfg) (len text * 2 + 1000)) ;;
         match response with
         | HttpRaises e => raise e
         | HttpReply status_code body =>
           if status_code =? 200 then
             match body with
             | None => emit (EvLog LError) ;; ret (Some text)
             | Some [] => emit (EvLog LError) ;; ret (Some text)
             | Some (first :: _) =>
               content <- lift_opt AttributeError first ;;
               ret (Some (strip content))
             end
           else emit (EvLog LError) ;; ret (Some text)
         end)
        (fun _ => emit (EvLog LError) ;; ret (Some text))
  end.

(** [text[:n] + '...' if len(text) > n else text]. *)
Definition excerpt (n : Z) (text : option pystr) : M (option pystr) :=
  l <- lift (py_len text) ;;
  if n <? l then ret (Some (slice_to n (AiAnalyzer.get text []) ++ u "..."))
  else ret text.

(** The body of the [try] of [translate_email]. *)
Definition translate_body (processed_email : ProcessedEmail)
                          (target_language : pystr) : M TranslationResult :=
  let original_language := _detect_language (text_content processed_email) in
  if str_eqb original_language target_language then
    ret (SameLanguage original_language target_language
           (subject processed_email) (text_content processed_email)
           (u "原始语言与目标语言相同，无需翻译"))
  else
    translated_subject <-
      _translate_text (Some (subject processed_email))
                      original_language target_language ;;
    translated_content <-
      _translate_text (text_content processed_email)
                      original_language target_language ;;
    original_content <- excerpt 500 (text_content processed_email) ;;
    ret (Translated original_language target_language
           (subject processed_email) original_content
           translated_subject translated_content
           (from_email processed_email) (to_email processed_email)
           (message_id processed_email)).

(** The [except Exception as e] of [translate_email]. *)
Definition translate_handler (processed_email : ProcessedEmail) (e : exn)
  : M TranslationResult :=
  emit (EvLog LError) ;;
  original_content <- excerpt 200 (text_content processed_email) ;;
  ret (Failure e (subject processed_email) original_content).

Definition translate_email (processed_email : ProcessedEmail)
                           (target_language : pystr) : M TranslationResult :=
  try_except (translate_body processed_email target_language)
             (translate_handler processed_email).

End Translator.

End Trans.

(* ================================================================== *)
(** * The specification's reading of the heuristics *)
(* ================================================================== *)

Module Spec.

(** [n] occurs in [h]. *)
Definition substring (n h : pystr) : Prop := exists p q, h = p ++ n ++ q.

(** The text before and the text after the first occurrence of [needle]. *)
Fixpoint find_sub (needle s : pystr) {struct s} : option (pystr * pystr) :=
  if startswith needle s then Some ([], skipn (length needle) s)
  else
    match s with
    | [] => None
    | c :: s' =>
      match find_sub needle s' with
      | Some (p, r) => Some (c :: p, r)
      | None => None
      end
    end.

Fixpoint first_some {A B} (f : A -> option B) (l : list A) : option B :=
  match l with
  | [] => None
  | a :: l' =>
    match f a with
    | Some b => Some b
    | None => first_some f l'
    end
  end.

(** How many characters of a class a text holds. *)
Definition count (p : Z -> bool) (s : pystr) : Z := len (filter p s).

Definition is_cjk (c : Z) : bool := (0x4e00 <=? c) && (c <=? 0x9fff).
Definition is_latin_letter (c : Z) : bool :=
  ((97 <=? c) && (c <=? 122)) || ((65 <=? c) && (c <=? 90)).
Definition is_lower_ascii (c : Z) : bool := (97 <=? c) && (c <=? 122).

(** ** Section 4.6, step 6: the candidate handed to the JSON decoder *)

(** After the marker [```json]: the places where the body can open, one
    after each line break inside the leading white space, the last
    first. *)
Fixpoint openings (t : pystr) : list pystr :=
  match t with
  | c :: t' =>
    if isspace c then openings t' ++ (if c =? nl then [t'] else [])
    else []
  | [] => []
  end.

(** The body: up to the first line break that three backquotes follow. *)
Definition closing_fence : pystr := nl :: u "```".

Definition body_before_fence (r : pystr) : option pystr :=
  option_map fst (find_sub closing_fence r).

(** The end of the fence pattern, from the group on. *)
Definition body_re : regex := Open :: Lazy any :: Close :: lit closing_fence.

Definition fenced_at (s : pystr) : option pystr :=
  if startswith (u "```json") s
  then first_some body_before_fence (openings (skipn 7 s))
  else None.

(** The body of the first fenced block. *)
Fixpoint spec_fenced_body (s : pystr) : option pystr :=
  match fenced_at s with
  | Some b => Some b
  | None =>
    match s with
    | [] => None
    | _ :: s' => spec_fenced_body s'
    end
  end.

(** The text from the first occurrence of a character on. *)
Fixpoint from_first (c : Z) (s : pystr) : option pystr :=
  match s with
  | [] => None
  | x :: s' => if x =? c then Some s else from_first c s'
  end.

(** The text up to the last occurrence of a character. *)
Fixpoint upto_last (c : Z) (s : pystr) : option pystr :=
  match s with
  | [] => None
  | x :: s' =>
    match upto_last c s' with
    | Some r => Some (x :: r)
    | None => if x =? c then Some [x] else None
    end
  end.

(** From the first opening brace to the last closing brace after it. *)
Definition spec_brace_span (s : pystr) : option pystr :=
  match from_first 123 s with
  | Some (o :: t) => option_map (cons o) (upto_last 125 t)
  | _ => None
  end.

(** From an opening brace to the brace that closes it. *)
Fixpoint close_at (depth : nat) (t : pystr) : option pystr :=
  match t with
  | [] => None
  | c :: t' =>
    if c =? 125 then
      match depth with
      | O => Some [c]
      | S d => option_map (cons c) (close_at d t')
      end
    else if c =? 123 then option_map (cons c) (close_at (S depth) t')
    else option_map (cons c) (close_at depth t')
  end.

(** The first top-level brace group, as the specification words it. *)
Definition claimed_brace_group (s : pystr) : option pystr :=
  match from_first 123 s with
  | Some (o :: t) => option_map (cons o) (close_at 0 t)
  | _ => None
  end.

Definition candidate_with (braces : pystr -> option pystr) (response : pystr)
  : pystr :=
  match spec_fenced_body response with
  | Some body => strip body
  | None =>
    match braces response with
    | Some t => t
    | None => response
    end
  end.

(** The candidate the sources select, and the one the specification
    words. *)
Definition spec_candidate : pystr -> pystr := candidate_with spec_brace_span.
Definition claimed_candidate : pystr -> pystr := candidate_with claimed_brace_group.

Section WithCase.
Context {cf : CaseFolding}.

(** ** Section 4.3: the two language heuristics *)

Definition spec_detect_language (text : pystr) : pystr :=
  match text with
  | [] => u "zh"
  | _ =>
    if count is_latin_letter text <? count is_cjk text then u "zh"
    else if 0 <? count is_latin_letter text then u "en"
    else if existsb (fun c => has_char c (u "àáâãäåæçèéêëìíîïðñòóôõöøùúûüýþÿ"))
                    (lower text) then u "fr"
    else if existsb (fun c => has_char c (u "äöüß")) (lower text) then u "de"
    else if existsb (fun c => has_char c (u "áéíóúñü")) (lower text) then u "es"
    else u "en"
  end.

(** The translation path as the specification words it: the ratio is
    taken over the characters that are no white space. *)
Definition claimed_translation_detect (text : pystr) : pystr :=
  match text with
  | [] => u "unknown"
  | _ =>
    let cjk := count is_cjk text in
    let total := count (fun c => negb (isspace c)) text in
    if 3 * total <? 10 * cjk then u "zh"
    else if existsb is_latin_letter text then u "en"
    else u "unknown"
  end.

(** The translation path of the sources: the ratio is taken over the
    characters other than the space and the line break, and the letters
    are looked for in the lower-cased text. *)
Definition spec_translation_detect (text : pystr) : pystr :=
  match text with
  | [] => u "unknown"
  | _ =>
    let cjk := count is_cjk text in
    let total := count (fun c => negb ((c =? 32) || (c =? nl))) text in
    if total =? 0 then u "unknown"
    else if 3 * total <? 10 * cjk then u "zh"
    else if existsb is_lower_ascii (lower text) then u "en"
    else u "unknown"
  end.

End WithCase.

(** ** Section 4.1: the verifier and the gate *)

(** What the verifier decides: the secret and the payload encode, the
    signature is ASCII, and it is the MAC of the payload. *)
Definition signature_ok (cfg : Config) (raw_b64 sig_hex : pystr) : bool :=
  match encode (INBOUND_SECRET cfg), encode raw_b64 with
  | Some key, Some msg =>
    Hmac.is_ascii sig_hex && str_eqb (Hmac.hexdigest key msg) sig_hex
  | _, _ => false
  end.

(** The events that read the payload. *)
Definition reads_payload (e : event) : bool :=
  match e with
  | EvB64Decode _ | EvMimeParse _ => true
  | _ => false
  end.

(** One bit of one character of a string flipped. *)
Definition flip_bit (i : nat) (k : Z) (s : pystr) : pystr :=
  firstn i s ++
  match skipn i s with
  | c :: rest => Z.lxor c (2 ^ k) :: rest
  | [] => []
  end.

(** ** Section 4.7: a text the cleaning leaves as it is *)
Definition plain_line (line : pystr) : bool :=
  truthy line && str_eqb (strip line) line.

Definition plain_text (content : pystr) : bool :=
  negb (has_char 60 content) && forallb plain_line (split nl content).

(** ** Section 4.7: the quote of the original content *)

(** The text without its tags, read from left to right: a tag is an
    opening angle bracket, at least one character other than the closing
    bracket, and the closing bracket.  [pending] holds what was read
    since an opening bracket that may still start a tag. *)
Fixpoint without_tags (pending : option pystr) (s : pystr) : pystr :=
  match s with
  | [] => match pending with Some p => p | None => [] end
  | c :: s' =>
    match pending with
    | None => if c =? 60 then without_tags (Some [c]) s' else c :: without_tags None s'
    | Some p =>
      if c =? 62 then
        if (1 <? length p)%nat then without_tags None s'
        else p ++ c :: without_tags None s'
      else without_tags (Some (p ++ [c])) s'
    end
  end.

(** A run of empty lines becomes one empty line. *)
Fixpoint squeeze (lines : list pystr) : list pystr :=
  match lines with
  | [] => []
  | l :: rest =>
    match l, rest with
    | [], [] :: _ => squeeze rest
    | _, _ => l :: squeeze rest
    end
  end.

(** The lines without the empty ones at the start and at the end. *)
Fixpoint drop_blank (lines : list pystr) : list pystr :=
  match lines with
  | [] :: rest => drop_blank rest
  | _ => lines
  end.

Definition trim_blank (lines : list pystr) : list pystr :=
  rev (drop_blank (rev (drop_blank lines))).

(** The content as it is quoted: tags taken out, every line stripped,
    runs of empty lines squeezed, empty lines at both ends dropped. *)
Definition spec_clean (content : pystr) : pystr :=
  join [nl]
    (trim_blank (squeeze (map strip (split nl (without_tags None content))))).

(** A text with [> ] before each of its lines. *)
Definition quote_lines (text : pystr) : pystr :=
  join [nl] (map (fun line => u "> " ++ line) (split nl text)).

(** The quote the sources write, and the one the specification words:
    the original content itself, line for line. *)
Definition spec_quote (original : pystr) : pystr := quote_lines (spec_clean original).
Definition claimed_quote (original : pystr) : pystr := quote_lines original.

End Spec.
Import Spec.

(* ================================================================== *)
(** * Inputs of the examples *)
(* ================================================================== *)

Module Samples.
Import EmailProcessor.

Definition sample_part : Part := {|
  content_type := u "text/plain";
  content_disposition := None;
  filename := None;
  content := Ok (u "Hello");
  payload_text := Ok (u "Hello");
  payload_size := Ok 5
|}.

Definition sample_message : EmailMessage :=
  Message [(u "From", Ok (u "alice@example.com"));
           (u "To", Ok (u "ai@kr777.top"));
           (u "Subject", Ok (u "Greetings"))]
          sample_part None.

(** The bytes of that message, and their base64. *)
Definition sample_bytes : pybytes :=
  bytes_of "From: alice@example.com
To: ai@kr777.top
Subject: Greetings

Hello".

Definition sample_raw_b64 : pystr :=
  u "RnJvbTogYWxpY2VAZXhhbXBsZS5jb20KVG86IGFpQGtyNzc3LnRvcApTdWJqZWN0OiBHcmVldGluZ3MKCkhlbGxv".

(** What the two library calls answer on the sample: the payload decodes
    to the bytes and the bytes parse to the message; any other text is
    refused by the decoder, any other bytes parse to a message without
    headers. *)
Definition SampleLib : EmailLib := {|
  b64decode := fun s =>
    if str_eqb s sample_raw_b64 then Ok sample_bytes else Raise BinasciiError;
  parsebytes := fun b =>
    if str_eqb b sample_bytes then Ok sample_message
    else Ok (Message [] sample_part None)
|}.

(** A world whose endpoint is down. *)
Definition sample_world : World :=
  {| replies := []; clock := 1730000123; dice := [4242]; trace := [] |}.

(** A message without a text part. *)
Definition sample_email : ProcessedEmail := {|
  from_email := u "alice@example.com";
  to_email := u "ai@kr777.top";
  subject := u "Greetings";
  date := [];
  message_id := [];
  text_content := None;
  html_content := Some (u "<p>Hello</p>");
  attachments := [];
  raw_size := 66
|}.

(** The decoder on the texts of the examples: [{}] is the empty object,
    the others are no JSON. *)
Definition empty_object : AiAnalyzer.Analysis := {|
  AiAnalyzer.intent := None; AiAnalyzer.urgency := None;
  AiAnalyzer.can_auto_reply := None; AiAnalyzer.chinese_content := None;
  AiAnalyzer.todo_items := None; AiAnalyzer.main_topic := None;
  AiAnalyzer.requires_info := None; AiAnalyzer.sentiment := None;
  AiAnalyzer.detected_language := None; AiAnalyzer.need_reply := None;
  AiAnalyzer.reply_content := None; AiAnalyzer.sender := None
|}.

Definition SampleJson : AiAnalyzer.JsonLib := {|
  AiAnalyzer.json_loads := fun s =>
    if str_eqb s (u "{}") then Some (AiAnalyzer.JObject empty_object) else None
|}.

(** A world whose endpoint answers once, with the given text. *)
Definition answering_world (reply : pystr) : World :=
  {| replies := [HttpReply 200 (Some [Some reply])];
     clock := 1730000123; dice := [4242]; trace := [] |}.

End Samples.
Import Samples.

Arguments u : simpl never.

(* ================================================================== *)
(** * Facts about the string operations *)
(* ================================================================== *)

Section PyFacts.

Lemma str_eqb_refl (a : pystr) : str_eqb a a = true.
Proof.
  induction a as [|x a IH]; simpl; [reflexivity|].
  now rewrite Z.eqb_refl, IH.
Qed.

Lemma str_eqb_eq (a b : pystr) : str_eqb a b = true <-> a = b.
Proof.
  split; [|intros ->; apply str_eqb_refl].
  revert b; induction a as [|x a IH]; intros [|y b]; simpl; try easy.
  intros H; apply andb_true_iff in H as [Hx Ha].
  apply Z.eqb_eq in Hx; subst; f_equal; auto.
Qed.

Lemma str_eqb_neq (a b : pystr) : a <> b -> str_eqb a b = false.
Proof.
  intros H; destruct (str_eqb a b) eqn:E; [|reflexivity].
  now apply str_eqb_eq in E.
Qed.

Lemma startswith_app (p r : pystr) : startswith p (p ++ r) = true.
Proof.
  induction p as [|x p IH]; simpl; [reflexivity|].
  now rewrite Z.eqb_refl.
Qed.

Lemma startswith_spec (p s : pystr) :
  startswith p s = true <-> exists r, s = p ++ r.
Proof.
  split.
  - revert s; induction p as [|x p IH]; intros s H.
    + now exists s.
    + destruct s as [|y s]; simpl in H; [discriminate|].
      apply andb_true_iff in H as [Hx Hp].
      apply Z.eqb_eq in Hx; subst.
      destruct (IH _ Hp) as [r ->]; now exists r.
  - intros [r ->]; apply startswith_app.
Qed.

Lemma startswith_skipn (p s : pystr) :
  startswith p s = true -> s = p ++ skipn (length p) s.
Proof.
  intros H; apply startswith_spec in H as [r ->].
  now rewrite skipn_app, skipn_all, Nat.sub_diag.
Qed.

Lemma contains_cons (n : pystr) (c : Z) (h : pystr) :
  contains n (c :: h) = startswith n (c :: h) || contains n h.
Proof. reflexivity. Qed.

Lemma contains_nil (n : pystr) : contains n [] = startswith n [].
Proof. simpl; now rewrite orb_false_r. Qed.

(** [needle in hay] holds exactly when [needle] occurs in [hay]. *)
Lemma contains_substring (n h : pystr) :
  contains n h = true <-> substring n h.
Proof.
  split.
  - induction h as [|c h IH].
    + rewrite contains_nil; intros H.
      apply startswith_spec in H as [r Hr]; now exists [], r.
    + rewrite contains_cons; intros H.
      apply orb_true_iff in H as [H|H].
      * apply startswith_spec in H as [r Hr]; now exists [], r.
      * destruct (IH H) as (p & r & ->); now exists (c :: p), r.
  - intros (p & r & ->).
    induction p as [|c p IH]; simpl app.
    + destruct (n ++ r) eqn:E.
      * rewrite contains_nil, <- E; apply startswith_app.
      * rewrite contains_cons, <- E, startswith_app; reflexivity.
    + rewrite contains_cons, IH; apply orb_true_r.
Qed.

Lemma has_char_in (c : Z) (s : pystr) : has_char c s = true <-> In c s.
Proof.
  unfold has_char; rewrite existsb_exists; split.
  - intros (x & Hx & E); apply Z.eqb_eq in E; now subst.
  - intros H; exists c; split; [assumption|apply Z.eqb_refl].
Qed.

Lemma truthy_false (s : pystr) : truthy s = false <-> s = [].
Proof. destruct s; simpl; split; easy. Qed.

Example u_ascii : u "fwd:" = [102; 119; 100; 58].
Proof. reflexivity. Qed.

Example u_cjk : u "转：" = [0x8F6C; 0xFF1A].
Proof. reflexivity. Qed.

Example split_lines : split nl (u "a

b") = [u "a"; []; u "b"].
Proof. reflexivity. Qed.

Example str_of_int_ex : str_of_int 1730000123 = u "1730000123".
Proof. reflexivity. Qed.

End PyFacts.

(* ================================================================== *)
(** * Facts about the matcher *)
(* ================================================================== *)

Section ReFacts.

Lemma between_cons (c : Z) (s : pystr) : between (c :: s) s = [c].
Proof.
  unfold between; simpl length.
  replace (S (length s) - length s)%nat with 1%nat by lia; reflexivity.
Qed.

Lemma between_prefix (p r : pystr) : between (p ++ r) r = p.
Proof.
  unfold between; rewrite length_app.
  replace (length p + length r - length r)%nat with (length p) by lia.
  now rewrite firstn_app, firstn_all, Nat.sub_diag, app_nil_r.
Qed.

(** A pattern of one class: [findall] lists the characters of the class. *)
Lemma findall_fuel_class (p : Z -> bool) (fuel : nat) (s : pystr) :
  (length s <= fuel)%nat ->
  findall_fuel fuel [One p] s = map (fun c => [c]) (filter p s).
Proof.
  revert s; induction fuel as [|f IH]; intros [|c s] H; simpl in *; try lia; try reflexivity.
  destruct (p c).
  - replace (length s <? S (length s))%nat with true
      by (symmetry; apply Nat.ltb_lt; lia).
    rewrite between_cons, IH by lia; reflexivity.
  - apply IH; lia.
Qed.

Lemma findall_class (p : Z -> bool) (s : pystr) :
  len (findall [One p] s) = len (filter p s).
Proof.
  unfold findall, len; rewrite findall_fuel_class by lia.
  now rewrite length_map.
Qed.

(** A pattern of one class: [search] finds a character of the class. *)
Lemma search_class (p : Z -> bool) (s : pystr) :
  found (search [One p] s) = existsb p s.
Proof.
  unfold search; generalize 0%nat.
  induction s as [|c s IH]; intros pos; simpl; [reflexivity|].
  destruct (p c); simpl; [reflexivity|apply IH].
Qed.

(** A literal matches where the subject starts with it. *)
Lemma lit_match (w : pystr) (r : regex) (s : pystr) (g : marks) :
  match_at (lit w ++ r) s g =
  if startswith w s then match_at r (skipn (length w) s) g else None.
Proof.
  revert s; induction w as [|x w IH]; intros s; simpl; [reflexivity|].
  destruct s as [|c s]; [reflexivity|].
  simpl; rewrite Z.eqb_sym, IH.
  destruct (c =? x); reflexivity.
Qed.

Lemma upto_last_prefix (c : Z) (s p : pystr) :
  upto_last c s = Some p -> s = p ++ skipn (length p) s.
Proof.
  revert p; induction s as [|x s IH]; intros p; simpl; [discriminate|].
  destruct (upto_last c s) as [r|].
  - intros [= <-]; simpl; f_equal; now apply IH.
  - destruct (x =? c); [|discriminate].
    intros [= <-]; reflexivity.
Qed.

Lemma upto_last_none (c : Z) (s : pystr) :
  upto_last c s = None <-> ~ In c s.
Proof.
  induction s as [|x s IH]; simpl; [easy|].
  destruct (upto_last c s) as [r|].
  - split; [discriminate|]. intros H; exfalso.
    assert (Hs : ~ In c s) by tauto.
    apply IH in Hs; discriminate.
  - destruct (Z.eqb_spec x c) as [->|Hne].
    + split; [discriminate|tauto].
    + split; [|reflexivity]. intros _ [E|Hin]; [easy|]. now apply IH.
Qed.

Lemma from_first_suffix (c : Z) (s t : pystr) :
  from_first c s = Some t -> exists p, s = p ++ t /\ exists r, t = c :: r.
Proof.
  induction s as [|x s IH]; simpl; [discriminate|].
  destruct (Z.eqb_spec x c) as [->|Hne].
  - intros [= <-]; exists []; split; [reflexivity|now exists s].
  - intros H; destruct (IH H) as (p & -> & r & ->).
    exists (x :: p); split; [reflexivity|now exists r].
Qed.

(** [.*] before a closing brace runs to the last one. *)
Lemma greedy_any_close (g : marks) (s : pystr) :
  greedy any (fun t => match_at [One (Z.eqb 125)] t g) s =
  match upto_last 125 s with
  | Some p => Some (skipn (length p) s, g)
  | None => None
  end.
Proof.
  induction s as [|c s IH]; [reflexivity|].
  cbn [greedy upto_last]; unfold any at 1; rewrite IH.
  destruct (upto_last 125 s) as [p|]; [reflexivity|].
  cbn [match_at]; rewrite Z.eqb_sym.
  destruct (c =? 125); reflexivity.
Qed.

Lemma match_brace (s : pystr) (g : marks) :
  match_at AiAnalyzer.brace_re s g =
  match s with
  | c :: t =>
    if c =? 123 then
      match upto_last 125 t with
      | Some p => Some (skipn (length p) t, g)
      | None => None
      end
    else None
  | [] => None
  end.
Proof.
  destruct s as [|c t]; [reflexivity|].
  unfold AiAnalyzer.brace_re; cbn [match_at].
  rewrite Z.eqb_sym; destruct (c =? 123); [|reflexivity].
  apply greedy_any_close.
Qed.

(** [\{.*\}]: from the first opening brace to the last closing brace. *)
Lemma search_brace (s : pystr) (pos : nat) :
  option_map m_group0 (search_from AiAnalyzer.brace_re pos s) = spec_brace_span s.
Proof.
  revert pos; induction s as [|c t IH]; intros pos; [reflexivity|].
  cbn [search_from]; rewrite match_brace.
  unfold spec_brace_span; cbn [from_first].
  destruct (Z.eqb_spec c 123) as [->|Hne].
  - destruct (upto_last 125 t) as [p|] eqn:E.
    + apply upto_last_prefix in E as Hp.
      cbn [option_map m_group0]; do 2 f_equal.
      rewrite Hp at 1.
      change (123 :: p ++ skipn (length p) t)
        with ((123 :: p) ++ skipn (length p) t).
      apply between_prefix.
    + rewrite IH; cbn [option_map].
      unfold spec_brace_span.
      destruct (from_first 123 t) as [[|o t2]|] eqn:F; try reflexivity.
      apply from_first_suffix in F as (p & -> & _).
      apply upto_last_none in E.
      assert (E2 : upto_last 125 t2 = None).
      { apply upto_last_none; intros Hin; apply E.
        apply in_or_app; right; now right. }
      now rewrite E2.
  - rewrite IH; reflexivity.
Qed.

End ReFacts.

Section FenceFacts.

(** The equations of [match_at], one atom at a time. *)
Lemma match_at_one (p : Z -> bool) (r : regex) (c : Z) (s : pystr) (g : marks) :
  match_at (One p :: r) (c :: s) g = if p c then match_at r s g else None.
Proof. reflexivity. Qed.

Lemma match_at_greedy (p : Z -> bool) (r : regex) (s : pystr) (g : marks) :
  match_at (Greedy p :: r) s g = greedy p (fun t => match_at r t g) s.
Proof. reflexivity. Qed.

Lemma match_at_lazy (p : Z -> bool) (r : regex) (s : pystr) (g : marks) :
  match_at (Lazy p :: r) s g = lazily p (fun t => match_at r t g) s.
Proof. reflexivity. Qed.

Lemma match_at_open (r : regex) (s : pystr) (g : marks) :
  match_at (Open :: r) s g = match_at r s (Some s, snd g).
Proof. reflexivity. Qed.

Lemma match_at_close (r : regex) (s : pystr) (g : marks) :
  match_at (Close :: r) s g = match_at r s (fst g, Some s).
Proof. reflexivity. Qed.

Lemma find_sub_split (n s p r : pystr) :
  find_sub n s = Some (p, r) -> s = p ++ n ++ r.
Proof.
  revert p; induction s as [|c s IH]; intros p.
  - cbn [find_sub]; destruct (startswith n []) eqn:E; [|discriminate].
    intros [= <- <-]; now apply startswith_skipn.
  - cbn [find_sub]; destruct (startswith n (c :: s)) eqn:E.
    + intros [= <- <-]; now apply startswith_skipn.
    + destruct (find_sub n s) as [[p' r']|]; [|discriminate].
      intros [= <- <-]; simpl; f_equal; now apply IH.
Qed.

Lemma first_some_app {A B} (f : A -> option B) (l1 l2 : list A) :
  first_some f (l1 ++ l2) =
  match first_some f l1 with
  | Some b => Some b
  | None => first_some f l2
  end.
Proof.
  induction l1 as [|a l1 IH]; simpl; [reflexivity|].
  destruct (f a); [reflexivity|apply IH].
Qed.

(** The closing part of the pattern, [)\n```], and the lazy [.*?] before
    it: the body ends at the first line break that three backquotes
    follow. *)
Lemma match_close (x : pystr) (g : marks) :
  match_at (Close :: lit closing_fence) x g =
  if startswith closing_fence x
  then Some (skipn 4 x, (fst g, Some x)) else None.
Proof.
  rewrite match_at_close, <- (app_nil_r (lit closing_fence)), lit_match.
  reflexivity.
Qed.

Lemma lazily_fence (o : option pystr) (r : pystr) :
  lazily any (fun x => match_at (Close :: lit closing_fence) x (o, None)) r =
  match find_sub closing_fence r with
  | Some (p, rest) => Some (rest, (o, Some (skipn (length p) r)))
  | None => None
  end.
Proof.
  induction r as [|c r IH].
  - cbn [lazily find_sub]; rewrite match_close.
    destruct (startswith closing_fence []); reflexivity.
  - cbn [lazily find_sub]; rewrite match_close.
    destruct (startswith closing_fence (c :: r)); [reflexivity|].
    unfold any at 1; rewrite IH.
    destruct (find_sub closing_fence r) as [[p rest]|]; reflexivity.
Qed.

(** What group 1 holds once the opening line break has been passed. *)
Lemma match_body (r : pystr) :
  option_map (fun m => group1_of (snd m)) (match_at body_re r (None, None)) =
  option_map Some (body_before_fence r).
Proof.
  unfold body_re, body_before_fence.
  rewrite match_at_open, match_at_lazy; cbn [snd].
  rewrite lazily_fence.
  destruct (find_sub closing_fence r) as [[p rest]|] eqn:E; [|reflexivity].
  apply find_sub_split in E.
  cbn [option_map snd fst group1_of]; do 2 f_equal.
  rewrite E at 1 2.
  rewrite skipn_app, skipn_all, Nat.sub_diag; cbn [skipn app].
  apply between_prefix.
Qed.

(** The greedy white space before the opening line break. *)
Lemma match_opening (t : pystr) :
  option_map (fun m => group1_of (snd m))
    (greedy isspace
       (fun x => match_at (One (Z.eqb nl) :: body_re) x (None, None)) t) =
  option_map Some (first_some body_before_fence (openings t)).
Proof.
  induction t as [|c t IH]; [reflexivity|].
  cbn [greedy openings].
  destruct (isspace c) eqn:Hc.
  - rewrite first_some_app.
    destruct (greedy isspace _ t) as [m|].
    + cbn [option_map] in IH |- *.
      destruct (first_some body_before_fence (openings t)); [exact IH|discriminate].
    + cbn [option_map] in IH.
      destruct (first_some body_before_fence (openings t)); [discriminate|].
      rewrite match_at_one, Z.eqb_sym.
      destruct (c =? nl); [|reflexivity].
      rewrite match_body; cbn [first_some].
      destruct (body_before_fence t); reflexivity.
  - rewrite match_at_one, Z.eqb_sym.
    destruct (Z.eqb_spec c nl) as [->|_]; [discriminate|reflexivity].
Qed.

Lemma match_fence (s : pystr) :
  option_map (fun m => group1_of (snd m))
    (match_at AiAnalyzer.fence_re s (None, None)) =
  option_map Some (fenced_at s).
Proof.
  unfold AiAnalyzer.fence_re, fenced_at; rewrite lit_match.
  destruct (startswith (u "```json") s); [|reflexivity].
  change (length (u "```json")) with 7%nat.
  cbn [app]; rewrite match_at_greedy; apply match_opening.
Qed.

(** [```json\s*\n(.*?)\n```]: group 1 of the leftmost match is the body
    of the first fenced block. *)
Lemma search_fence (s : pystr) (pos : nat) :
  option_map m_group1 (search_from AiAnalyzer.fence_re pos s) =
  option_map Some (spec_fenced_body s).
Proof.
  revert pos; induction s as [|c s IH]; intros pos.
  - cbn [search_from spec_fenced_body].
    pose proof (match_fence []) as H.
    destruct (match_at AiAnalyzer.fence_re [] (None, None)) as [[rest g]|];
      destruct (fenced_at []); cbn [option_map snd m_group1] in H |- *;
      congruence.
  - cbn [search_from spec_fenced_body].
    pose proof (match_fence (c :: s)) as H.
    destruct (match_at AiAnalyzer.fence_re (c :: s) (None, None)) as [[rest g]|];
      destruct (fenced_at (c :: s)); cbn [option_map snd m_group1] in H |- *;
      first [congruence | apply IH].
Qed.

(** The candidate of the sources is the candidate of the specification
    as amended. *)
Lemma json_candidate_spec (response : pystr) :
  AiAnalyzer.json_candidate response = spec_candidate response.
Proof.
  unfold AiAnalyzer.json_candidate, spec_candidate, candidate_with, search.
  pose proof (search_fence response 0) as Hf.
  pose proof (search_brace response 0) as Hb.
  destruct (search_from AiAnalyzer.fence_re 0 response) as [m|];
    destruct (spec_fenced_body response) as [b|];
    cbn [option_map] in Hf; try discriminate.
  - injection Hf as ->; reflexivity.
  - destruct (search_from AiAnalyzer.brace_re 0 response) as [m|];
      destruct (spec_brace_span response) as [t|];
      cbn [option_map] in Hb; try discriminate; congruence.
Qed.

End FenceFacts.

(* ================================================================== *)
(** * Section 4.3: the analysis-path language detector *)
(* ================================================================== *)

Section DetectLanguage.
Context {cf : CaseFolding}.

(** C6.  The analysis-path detector: empty text is Chinese; otherwise
    more CJK ideographs than Latin letters is Chinese, else any Latin
    letter is English, else the first diacritic set with a character in
    the lower-cased text decides among French, German and Spanish, and
    English is the default. *)
Theorem detect_language_spec (text : pystr) :
  AiAnalyzer.detect_language text = spec_detect_language text.
Proof.
  unfold AiAnalyzer.detect_language, spec_detect_language.
  destruct text as [|c text]; [reflexivity|].
  cbn [truthy negb].
  unfold AiAnalyzer.cjk_re, AiAnalyzer.latin_re, AiAnalyzer.french_re,
    AiAnalyzer.german_re, AiAnalyzer.spanish_re.
  rewrite !findall_class, !search_class.
  reflexivity.
Qed.

(** The three examples of section 8. *)
Example detect_chinese :
  AiAnalyzer.detect_language (cf := UnicodeCase) (u "这是中文邮件内容") = u "zh".
Proof. vm_compute; reflexivity. Qed.

Example detect_english :
  AiAnalyzer.detect_language (cf := UnicodeCase) (u "This is an English email") = u "en".
Proof. vm_compute; reflexivity. Qed.

Example detect_empty : AiAnalyzer.detect_language [] = u "zh".
Proof. reflexivity. Qed.

(** Every character of the Spanish set is in the French set, which is
    asked first: the detector never answers Spanish. *)
Lemma detect_language_never_spanish (text : pystr) :
  AiAnalyzer.detect_language text <> u "es".
Proof.
  unfold AiAnalyzer.detect_language.
  destruct text as [|c text]; [vm_compute; discriminate|].
  cbn [truthy negb].
  unfold AiAnalyzer.french_re, AiAnalyzer.german_re, AiAnalyzer.spanish_re.
  rewrite !search_class.
  change (one_of (u "àáâãäåæçèéêëìíîïðñòóôõöøùúûüýþÿ"))
    with (fun c0 => has_char c0 (u "àáâãäåæçèéêëìíîïðñòóôõöøùúûüýþÿ")).
  change (one_of (u "äöüß")) with (fun c0 => has_char c0 (u "äöüß")).
  change (one_of (u "áéíóúñü")) with (fun c0 => has_char c0 (u "áéíóúñü")).
  destruct (_ <? _); [vm_compute; discriminate|].
  destruct (0 <? _); [vm_compute; discriminate|].
  destruct (existsb _ (lower (c :: text))) eqn:Hfr; [vm_compute; discriminate|].
  destruct (existsb (fun c0 => has_char c0 (u "äöüß")) _); [vm_compute; discriminate|].
  destruct (existsb (fun c0 => has_char c0 (u "áéíóúñü")) _) eqn:Hes;
    [|vm_compute; discriminate].
  exfalso.
  apply existsb_exists in Hes as (x & Hx & Hs).
  assert (Hf : existsb (fun c0 => has_char c0 (u "àáâãäåæçèéêëìíîïðñòóôõöøùúûüýþÿ"))
                       (lower (c :: text)) = true).
  { apply existsb_exists; exists x; split; [assumption|].
    apply has_char_in in Hs; apply has_char_in.
    vm_compute in Hs |- *; intuition auto. }
  congruence.
Qed.

End DetectLanguage.

(* ================================================================== *)
(** * Section 4.4: the forwarded-message classifier *)
(* ================================================================== *)

Section Forwarded.
Context {cf : CaseFolding}.

(** At least two of four distinct tokens pass a test exactly when two
    different ones do. *)
Lemma two_of_four (f : pystr -> bool) (a b c d : pystr) :
  a <> b -> a <> c -> a <> d -> b <> c -> b <> d -> c <> d ->
  (2 <=? len (filter f [a; b; c; d])) = true <->
  exists i j, In i [a; b; c; d] /\ In j [a; b; c; d] /\ i <> j /\
              f i = true /\ f j = true.
Proof.
  intros Hab Hac Had Hbc Hbd Hcd.
  split.
  - cbn [filter].
    destruct (f a) eqn:Fa, (f b) eqn:Fb, (f c) eqn:Fc, (f d) eqn:Fd;
      cbn; intros H; try discriminate;
      first [ exists a, b; cbn; now auto 10
            | exists a, c; cbn; now auto 10
            | exists a, d; cbn; now auto 10
            | exists b, c; cbn; now auto 10
            | exists b, d; cbn; now auto 10
            | exists c, d; cbn; now auto 10 ].
  - intros (i & j & Hi & Hj & Hne & Fi & Fj).
    cbn [In] in Hi, Hj.
    cbn [filter].
    destruct Hi as [<-|[<-|[<-|[<-|[]]]]], Hj as [<-|[<-|[<-|[<-|[]]]]];
      try congruence; rewrite ?Fi, ?Fj;
      repeat match goal with
             | |- context [if f ?x then _ else _] => destruct (f x)
             end; reflexivity.
Qed.

Lemma existsb_contains (l : list pystr) (h : pystr) :
  existsb (fun i => contains i h) l = true <->
  exists i, In i l /\ substring i h.
Proof.
  rewrite existsb_exists; split; intros (i & Hi & H); exists i; split; auto;
    now apply contains_substring.
Qed.

(** The classifier as one boolean expression over the lower-cased
    subject and content. *)
Lemma is_forwarded_email_eq (subject content : pystr) :
  Utils.is_forwarded_email subject content =
  existsb (fun i => contains i (lower subject))
    [u "fwd:"; u "fw:"; u "转发:"; u "转："; u "forward:"; u "forwarded:"]
  || (2 <=? len (filter (fun i => contains i (lower content))
                        [u "from:"; u "sent:"; u "to:"; u "subject:"]))
  || existsb (fun i => contains i (lower content))
       [u "forwarded message"; u "转发的邮件"; u "转发邮件";
        u "original message"; u "原始邮件"; u "---------- forwarded message"].
Proof.
  unfold Utils.is_forwarded_email.
  change (slice_last 4 Utils.content_indicators)
    with [u "from:"; u "sent:"; u "to:"; u "subject:"].
  change (slice_to (-4) Utils.content_indicators)
    with [u "forwarded message"; u "转发的邮件"; u "转发邮件";
          u "original message"; u "原始邮件"; u "---------- forwarded message"].
  change Utils.forwarded_indicators
    with [u "fwd:"; u "fw:"; u "转发:"; u "转："; u "forward:"; u "forwarded:"].
  destruct subject as [|c subject], content as [|d content];
    cbn [truthy negb andb]; rewrite ?lower_nil.
  - reflexivity.
  - destruct (existsb _ _) eqn:E; [discriminate E|].
    cbn [orb]. destruct (2 <=? _); reflexivity.
  - destruct (existsb _ _); reflexivity.
  - destruct (existsb _ _); [reflexivity|].
    cbn [orb]. destruct (2 <=? _); reflexivity.
Qed.

(** C8.  A message is forwarded exactly when its lower-cased subject
    holds one of the six subject indicators, or its lower-cased content
    holds two different tokens of the four header tokens, or one of the
    six secondary indicators; an empty subject with an empty content is
    not forwarded. *)
Theorem is_forwarded_email_spec (subject content : pystr) :
  (Utils.is_forwarded_email subject content = true <->
     (exists i, In i [u "fwd:"; u "fw:"; u "转发:"; u "转："; u "forward:";
                      u "forwarded:"]
                /\ substring i (lower subject))
     \/ (exists i j, In i [u "from:"; u "sent:"; u "to:"; u "subject:"]
                     /\ In j [u "from:"; u "sent:"; u "to:"; u "subject:"]
                     /\ i <> j
                     /\ substring i (lower content)
                     /\ substring j (lower content))
     \/ (exists i, In i [u "forwarded message"; u "转发的邮件"; u "转发邮件";
                         u "original message"; u "原始邮件";
                         u "---------- forwarded message"]
                   /\ substring i (lower content)))
  /\ Utils.is_forwarded_email [] [] = false.
Proof.
  split; [|reflexivity].
  rewrite is_forwarded_email_eq, !orb_true_iff, !existsb_contains.
  rewrite two_of_four by (vm_compute; discriminate).
  split.
  - intros [[H|H]|H]; [left; exact H| |right; right; exact H].
    right; left.
    destruct H as (i & j & Hi & Hj & Hne & Ci & Cj).
    exists i, j; repeat split; auto; now apply contains_substring.
  - intros [H|[H|H]]; [left; left; exact H| |right; exact H].
    left; right.
    destruct H as (i & j & Hi & Hj & Hne & Ci & Cj).
    exists i, j; repeat split; auto; now apply contains_substring.
Qed.

(** The two examples of section 8. *)
Example forwarded_by_subject :
  Utils.is_forwarded_email (cf := UnicodeCase) (u "Fwd: Meeting notes") [] = true.
Proof. vm_compute; reflexivity. Qed.

Example not_forwarded :
  Utils.is_forwarded_email (cf := UnicodeCase) (u "Hello") (u "Just checking in") = false.
Proof. vm_compute; reflexivity. Qed.

End Forwarded.

(* ================================================================== *)
(** * Section 4.3: the translation-path language detector *)
(* ================================================================== *)

Section TranslationDetect.
Context {cf : CaseFolding}.

Lemma filter_filter {A} (f g : A -> bool) (l : list A) :
  filter f (filter g l) = filter (fun x => g x && f x) l.
Proof.
  induction l as [|x l IH]; simpl; [reflexivity|].
  destruct (g x); simpl; [destruct (f x)|]; now rewrite IH.
Qed.

Lemma total_chars_count (text : pystr) :
  len (remove_char nl (remove_char 32 text)) =
  count (fun c => negb ((c =? 32) || (c =? nl))) text.
Proof.
  unfold remove_char, count; rewrite filter_filter.
  f_equal; apply filter_ext; intros c.
  now rewrite negb_orb.
Qed.

(** A lower-case ASCII letter is a character of the alphabet the loop
    runs over. *)
Lemma alphabet_range (c : Z) :
  In c (u "abcdefghijklmnopqrstuvwxyz") <-> 97 <= c <= 122.
Proof.
  split.
  - vm_compute; intros H.
    repeat (destruct H as [<-|H]; [split; discriminate|]).
    destruct H.
  - intros H.
    assert (E : exists k : nat, (k < 26)%nat /\ c = 97 + Z.of_nat k)
      by (exists (Z.to_nat (c - 97)); lia).
    destruct E as (k & Hk & ->).
    do 26 (destruct k as [|k]; [vm_compute; tauto|]).
    lia.
Qed.

Lemma any_letter (s : pystr) :
  existsb (fun char => has_char char s) (u "abcdefghijklmnopqrstuvwxyz") =
  existsb is_lower_ascii s.
Proof.
  apply eq_true_iff_eq.
  rewrite !existsb_exists; split.
  - intros (ch & Hch & Hs).
    apply has_char_in in Hs; apply alphabet_range in Hch.
    exists ch; split; [assumption|]. unfold is_lower_ascii; lia.
  - intros (ch & Hs & Hch).
    exists ch; split; [|now apply has_char_in].
    apply alphabet_range; unfold is_lower_ascii in Hch; lia.
Qed.

(** On texts of fewer than 2^52 characters the comparison of the float
    quotient with the float 0.3 is the comparison of the exact ratio
    with 3/10. *)
Lemma ratio_gt_03_exact (c t : Z) :
  0 <= c -> 0 < t < 2 ^ 52 ->
  Trans.ratio_gt_03 c t = (3 * t <? 10 * c).
Proof.
  intros Hc Ht; unfold Trans.ratio_gt_03.
  change (2 ^ 55) with 36028797018963968.
  change (2 ^ 52) with 4503599627370496 in Ht.
  destruct (Z.ltb_spec (3 * t) (10 * c)); [apply Z.leb_le|apply Z.leb_gt]; lia.
Qed.

Lemma count_le_len (p : Z -> bool) (s : pystr) : 0 <= count p s <= len s.
Proof.
  unfold count, len; pose proof (filter_length_le p s); lia.
Qed.

(** C7, as the sources have it.  The ratio is taken over the characters
    other than the space and the line break (tabs and other white space
    count), a text of spaces and line breaks alone is unknown, and the
    letters are looked for in the lower-cased text. *)
Theorem translation_detect_spec (text : pystr) :
  len text < 2 ^ 52 ->
  Trans._detect_language (Some text) = spec_translation_detect text
  /\ Trans._detect_language None = u "unknown".
Proof.
  intros Hlen; split; [|reflexivity].
  unfold Trans._detect_language, spec_translation_detect.
  destruct text as [|c0 text]; [reflexivity|].
  rewrite total_chars_count, any_letter.
  fold (count (range 19968 40959) (c0 :: text)).
  change (range 19968 40959) with is_cjk.
  set (total := count _ (c0 :: text)).
  destruct (Z.eqb_spec total 0) as [|Hne]; [reflexivity|].
  rewrite ratio_gt_03_exact; [reflexivity| |].
  - apply count_le_len.
  - pose proof (count_le_len (fun c => negb ((c =? 32) || (c =? nl))) (c0 :: text)).
    fold total in H. lia.
Qed.

End TranslationDetect.

Lemma translation_detect_spec_witness :
  len [0x4E2D; 9; 9; 9] < 2 ^ 52 /\
  Trans._detect_language (cf := UnicodeCase) (Some [0x4E2D; 9; 9; 9]) =
    spec_translation_detect (cf := UnicodeCase) [0x4E2D; 9; 9; 9]
  /\ Trans._detect_language (cf := UnicodeCase) None = u "unknown".
Proof.
  split; [reflexivity|].
  apply (translation_detect_spec (cf := UnicodeCase) [0x4E2D; 9; 9; 9]).
  reflexivity.
Defined.

(** C7 as the specification words it fails on one ideograph followed by
    three tabs: a quarter of the characters the sources count are CJK,
    all of those that are no white space. *)
Lemma translation_detect_counterexample :
  Trans._detect_language (cf := UnicodeCase) (Some [0x4E2D; 9; 9; 9]) = u "unknown"
  /\ claimed_translation_detect [0x4E2D; 9; 9; 9] = u "zh"
  /\ Trans._detect_language (cf := UnicodeCase) (Some [0x4E2D; 9; 9; 9])
     <> claimed_translation_detect [0x4E2D; 9; 9; 9].
Proof.
  repeat split; vm_compute; discriminate.
Qed.

(* ================================================================== *)
(** * Section 4.1: the signature verifier and the gate *)
(* ================================================================== *)

Section Signature.
Import EmailProcessor.

Lemma new_events_app (w : World) (l : list event) (w' : World) :
  trace w' = trace w ++ l -> new_events w w' = l.
Proof.
  intros H; unfold new_events; rewrite H.
  now rewrite skipn_app, skipn_all, Nat.sub_diag.
Qed.

(** The digest is 32 bytes, each below 256. *)
Lemma be_bytes_range (n : nat) (x : Z) :
  Forall (fun b => 0 <= b < 256) (Sha256.be_bytes n x).
Proof.
  unfold Sha256.be_bytes; apply Forall_map, Forall_forall.
  intros i _; apply Z.mod_pos_bound; lia.
Qed.

Lemma digest_range (msg : pybytes) :
  Forall (fun b => 0 <= b < 256) (Sha256.digest msg).
Proof.
  unfold Sha256.digest; cbv zeta.
  apply Forall_flat_map, Forall_forall; intros x _; apply be_bytes_range.
Qed.

Lemma digest_length (msg : pybytes) : length (Sha256.digest msg) = 32%nat.
Proof. reflexivity. Qed.

Lemma hexlify_ascii (bs : pybytes) :
  Forall (fun b => 0 <= b < 256) bs -> Hmac.is_ascii (Hmac.hexlify bs) = true.
Proof.
  induction 1 as [|b bs Hb _ IH]; [reflexivity|].
  unfold Hmac.hexlify in *; cbn [flat_map app Hmac.is_ascii forallb].
  fold (Hmac.is_ascii (flat_map (fun b0 => [Hmac.hex_digit (b0 / 16); Hmac.hex_digit (b0 mod 16)]) bs)).
  rewrite IH, andb_true_r.
  assert (H1 : 0 <= b / 16 < 16) by (split; [apply Z.div_pos|apply Z.div_lt_upper_bound]; lia).
  assert (H2 : 0 <= b mod 16 < 16) by (apply Z.mod_pos_bound; lia).
  unfold Hmac.hex_digit.
  destruct (b / 16 <? 10), (b mod 16 <? 10);
    repeat (apply andb_true_iff; split); lia.
Qed.

Lemma hexlify_length (bs : pybytes) :
  length (Hmac.hexlify bs) = (2 * length bs)%nat.
Proof.
  induction bs as [|b bs IH]; [reflexivity|].
  unfold Hmac.hexlify in *; cbn [flat_map app length]; rewrite IH; lia.
Qed.

Lemma hexdigest_ascii (key msg : pybytes) :
  Hmac.is_ascii (Hmac.hexdigest key msg) = true.
Proof. apply hexlify_ascii, digest_range. Qed.

(** The MAC is 64 hexadecimal digits. *)
Lemma hexdigest_length (key msg : pybytes) :
  length (Hmac.hexdigest key msg) = 64%nat.
Proof.
  unfold Hmac.hexdigest, Hmac.hmac_sha256.
  now rewrite hexlify_length, digest_length.
Qed.

Variable cfg : Config.

(** [verify_signature] never raises; it answers [signature_ok], and
    writes one line of log when it caught an exception. *)
Lemma verify_signature_run (raw_b64 sig_hex : pystr) (w : World) :
  verify_signature cfg raw_b64 sig_hex w = (Ok (signature_ok cfg raw_b64 sig_hex), w)
  \/ (signature_ok cfg raw_b64 sig_hex = false /\
      verify_signature cfg raw_b64 sig_hex w = (Ok false, logged LError w)).
Proof.
  unfold verify_signature, signature_ok, try_except, bind, lift_opt.
  destruct (encode (INBOUND_SECRET cfg)) as [key|]; [|right; split; reflexivity].
  cbn [ret]; unfold ret at 1.
  destruct (encode raw_b64) as [msg|]; [|right; split; reflexivity].
  cbn [ret]; unfold Hmac.compare_digest.
  rewrite hexdigest_ascii; cbn [andb].
  destruct (Hmac.is_ascii sig_hex); [left|right; split]; reflexivity.
Qed.

Lemma verify_signature_value (raw_b64 sig_hex : pystr) (w : World) :
  fst (verify_signature cfg raw_b64 sig_hex w) = Ok (signature_ok cfg raw_b64 sig_hex).
Proof.
  destruct (verify_signature_run raw_b64 sig_hex w) as [H|[H1 H2]].
  - now rewrite H.
  - now rewrite H2, H1.
Qed.

(** First half of C1: the MAC of a payload verifies. *)
Lemma verify_signature_accepts_mac (raw_b64 : pystr) (key msg : pybytes) (w : World) :
  encode (INBOUND_SECRET cfg) = Some key ->
  encode raw_b64 = Some msg ->
  verify_signature cfg raw_b64 (Hmac.hexdigest key msg) w = (Ok true, w).
Proof.
  intros Hk Hm.
  destruct (verify_signature_run raw_b64 (Hmac.hexdigest key msg) w) as [H|[H _]];
    unfold signature_ok in H; rewrite Hk, Hm, hexdigest_ascii, str_eqb_refl in H;
    [exact H|discriminate].
Qed.

(** Second half of C1, for the signature: any other signature is
    refused, and flipping a bit of the MAC gives another signature. *)
Lemma verify_signature_rejects_other (raw_b64 sig_hex : pystr) (key msg : pybytes)
                                     (w : World) :
  encode (INBOUND_SECRET cfg) = Some key ->
  encode raw_b64 = Some msg ->
  sig_hex <> Hmac.hexdigest key msg ->
  fst (verify_signature cfg raw_b64 sig_hex w) = Ok false.
Proof.
  intros Hk Hm Hne.
  rewrite verify_signature_value; unfold signature_ok; rewrite Hk, Hm.
  rewrite (str_eqb_neq (Hmac.hexdigest key msg) sig_hex) by congruence.
  now rewrite andb_false_r.
Qed.

Lemma flip_bit_changes (i : nat) (k : Z) (s : pystr) :
  (i < length s)%nat -> 0 <= k -> flip_bit i k s <> s.
Proof.
  intros Hi Hk E; unfold flip_bit in E.
  rewrite <- (firstn_skipn i s) in E at 3.
  apply app_inv_head in E.
  destruct (skipn i s) as [|c rest] eqn:Hs.
  - apply (f_equal (@length Z)) in Hs; rewrite length_skipn in Hs; simpl in Hs; lia.
  - injection E as E.
    assert (Hx : Z.lxor c (Z.lxor c (2 ^ k)) = 0)
      by (rewrite E; apply Z.lxor_nilpotent).
    rewrite <- Z.lxor_assoc, Z.lxor_nilpotent, Z.lxor_0_l in Hx.
    pose proof (Z.pow_pos_nonneg 2 k); lia.
Qed.

Lemma verify_signature_rejects_flipped_signature
    (raw_b64 : pystr) (key msg : pybytes) (i : nat) (k : Z) (w : World) :
  encode (INBOUND_SECRET cfg) = Some key ->
  encode raw_b64 = Some msg ->
  (i < 64)%nat -> 0 <= k ->
  fst (verify_signature cfg raw_b64 (flip_bit i k (Hmac.hexdigest key msg)) w)
  = Ok false.
Proof.
  intros Hk Hm Hi Hk0.
  apply (verify_signature_rejects_other _ _ key msg); auto.
  apply flip_bit_changes; [rewrite hexdigest_length|]; assumption.
Qed.

(** A payload that cannot be encoded (a lone surrogate) is refused. *)
Lemma verify_signature_rejects_unencodable (raw_b64 sig_hex : pystr) (w : World) :
  encode raw_b64 = None ->
  fst (verify_signature cfg raw_b64 sig_hex w) = Ok false.
Proof.
  intros H; rewrite verify_signature_value; unfold signature_ok; rewrite H.
  now destruct (encode (INBOUND_SECRET cfg)).
Qed.

(** The half of C2 the sources keep: an empty signature is refused. *)
Lemma verify_signature_rejects_empty_signature (raw_b64 : pystr) (w : World) :
  fst (verify_signature cfg raw_b64 [] w) = Ok false.
Proof.
  rewrite verify_signature_value; unfold signature_ok.
  destruct (encode (INBOUND_SECRET cfg)) as [key|]; [|reflexivity].
  destruct (encode raw_b64) as [msg|]; [|reflexivity].
  pose proof (hexdigest_length key msg) as H.
  destruct (Hmac.hexdigest key msg); [discriminate H|reflexivity].
Qed.

End Signature.

(** C2.  The empty payload is accepted with its MAC: under the default
    secret, [verify_signature] answers [True] for the empty payload and
    the signature below, where the specification has it refuse every
    empty input. *)
Theorem verify_signature_accepts_empty_payload (w : World) :
  EmailProcessor.verify_signature default_config []
    (u "8622a90479bc431307824e7f35c5fcfc3d84741a95994ddaafc95905b83d9d47") w
  = (Ok true, w).
Proof. vm_compute; reflexivity. Qed.

Section Gate.
Import EmailProcessor.
Context {lib : EmailLib}.
Variable cfg : Config.

Lemma bind_ok {A B} (m : M A) (k : A -> M B) (w w' : World) (a : A) :
  m w = (Ok a, w') -> bind m k w = k a w'.
Proof. unfold bind; now intros ->. Qed.

Lemma try_ok {A} (m : M A) (h : exn -> M A) (w w' : World) (a : A) :
  m w = (Ok a, w') -> try_except m h w = (Ok a, w').
Proof. unfold try_except; now intros ->. Qed.

Lemma try_raise {A} (m : M A) (h : exn -> M A) (w w' : World) (e : exn) :
  m w = (Raise e, w') -> try_except m h w = h e w'.
Proof. unfold try_except; now intros ->. Qed.

(** A refused signature: [process_email] returns None after one or two
    lines of log. *)
Lemma process_email_refused (raw_b64 signature : pystr) (w : World) :
  signature_ok cfg raw_b64 signature = false ->
  exists w' l,
    process_email cfg raw_b64 signature w = (Ok None, w')
    /\ trace w' = trace w ++ l
    /\ (l = [EvLog LWarning] \/ l = [EvLog LError; EvLog LWarning])
    /\ replies w' = replies w.
Proof.
  intros Hv.
  destruct (verify_signature_run cfg raw_b64 signature w) as [H|[_ H]];
    rewrite ?Hv in H.
  - exists (logged LWarning w), [EvLog LWarning]; repeat split; [|now left].
    unfold process_email.
    erewrite try_ok; [reflexivity|].
    erewrite bind_ok by exact H. reflexivity.
  - exists (logged LWarning (logged LError w)), [EvLog LError; EvLog LWarning].
    repeat split; [|cbn; now rewrite <- app_assoc|now right].
    unfold process_email.
    erewrite try_ok; [reflexivity|].
    erewrite bind_ok by exact H. reflexivity.
Qed.

(** C3.  When [verify_signature] answers False, [process_email] returns
    no ProcessedEmail, and nothing it did read the payload: neither
    [base64.b64decode] nor the MIME parser was called, one or two lines
    of log are all it left. *)
Theorem process_email_gate (raw_b64 signature : pystr) (w : World) :
  fst (verify_signature cfg raw_b64 signature w) = Ok false ->
  exists w',
    process_email cfg raw_b64 signature w = (Ok None, w')
    /\ Forall (fun e => reads_payload e = false) (new_events w w')
    /\ (new_events w w' = [EvLog LWarning]
        \/ new_events w w' = [EvLog LError; EvLog LWarning]).
Proof.
  intros Hv.
  rewrite verify_signature_value in Hv; injection Hv as Hv.
  destruct (process_email_refused raw_b64 signature w Hv)
    as (w' & l & Hrun & Htrace & Hl & _).
  exists w'; rewrite (new_events_app w l w' Htrace).
  split; [exact Hrun|split; [|exact Hl]].
  destruct Hl as [-> | ->]; repeat constructor.
Qed.

(** Parsing is reached only behind the gate: a run that read the payload
    had a signature that verified. *)
Corollary process_email_reads_only_verified (raw_b64 signature : pystr) (w : World) :
  Exists (fun e => reads_payload e = true)
         (new_events w (snd (process_email cfg raw_b64 signature w))) ->
  fst (verify_signature cfg raw_b64 signature w) = Ok true.
Proof.
  intros Hex.
  rewrite verify_signature_value.
  destruct (signature_ok cfg raw_b64 signature) eqn:E; [reflexivity|exfalso].
  destruct (process_email_refused raw_b64 signature w E)
    as (w' & l & Hrun & Htrace & Hl & _).
  rewrite Hrun in Hex; cbn [snd] in Hex.
  rewrite (new_events_app w l w' Htrace) in Hex.
  apply Exists_exists in Hex as (e & Hin & He).
  destruct Hl as [-> | ->]; cbn [In] in Hin;
    intuition (subst; discriminate).
Qed.

End Gate.

Lemma process_email_gate_witness :
  fst (EmailProcessor.verify_signature default_config sample_raw_b64 (u "00")
         sample_world) = Ok false /\
  exists w',
    EmailProcessor.process_email (lib := SampleLib) default_config
      sample_raw_b64 (u "00") sample_world = (Ok None, w')
    /\ Forall (fun e => reads_payload e = false) (new_events sample_world w')
    /\ (new_events sample_world w' = [EvLog LWarning]
        \/ new_events sample_world w' = [EvLog LError; EvLog LWarning]).
Proof.
  split; [vm_compute; reflexivity|].
  apply (process_email_gate (lib := SampleLib) default_config
           sample_raw_b64 (u "00") sample_world).
  vm_compute; reflexivity.
Defined.

(** Behind the gate the payload is decoded and parsed. *)
Example process_email_accepts_signed :
  exists e w',
    EmailProcessor.process_email (lib := SampleLib) default_config
      sample_raw_b64
      (u "37e9bfc1c2a82546af3ba29ff38762ef41fcd8fbbe203418f93b7defe34a1040")
      sample_world = (Ok (Some e), w')
    /\ EmailProcessor.from_email e = u "alice@example.com"
    /\ EmailProcessor.text_content e = Some (u "Hello")
    /\ EmailProcessor.raw_size e = 66
    /\ new_events sample_world w' =
       [EvB64Decode sample_raw_b64; EvMimeParse sample_bytes;
        EvB64Decode sample_raw_b64; EvLog LInfo].
Proof.
  eexists _, _; split; [vm_compute; reflexivity|].
  repeat split; vm_compute; reflexivity.
Qed.

(** All that is open of C1: a payload other than the signed one is
    refused exactly when its MAC is another one. *)
Lemma verify_signature_other_payload
    (cfg : Config) (raw_b64 other : pystr) (key msg msg' : pybytes) (w : World) :
  encode (INBOUND_SECRET cfg) = Some key ->
  encode raw_b64 = Some msg ->
  encode other = Some msg' ->
  fst (EmailProcessor.verify_signature cfg other (Hmac.hexdigest key msg) w)
  = Ok (str_eqb (Hmac.hexdigest key msg') (Hmac.hexdigest key msg)).
Proof.
  intros Hk Hm Hm'.
  rewrite verify_signature_value; unfold signature_ok.
  now rewrite Hk, Hm', hexdigest_ascii.
Qed.

(** On a sample, the MAC verifies and every flip of one of the low seven
    bits of a character of the payload is refused. *)
Example flipped_sample_payloads_refused :
  let mac := u "8dc2ba93dec1c7724791ef54920556c64222c1f17e21824c2cc72e92731a824d" in
  signature_ok default_config (u "aGVsbG8=") mac = true
  /\ forallb (fun i =>
       forallb (fun k =>
         negb (signature_ok default_config (flip_bit i k (u "aGVsbG8=")) mac))
         [0; 1; 2; 3; 4; 5; 6])
       (seq 0 8) = true.
Proof. split; vm_compute; reflexivity. Qed.

(* ================================================================== *)
(** * Section 4.6: the analysis orchestrator *)
(* ================================================================== *)

Section Orchestrator.
Import AiAnalyzer.
Context {cf : CaseFolding} {js : JsonLib}.
Variable cfg : Config.

(** A handler that returns makes a [try] that returns. *)
Lemma try_except_total {A} (m : M A) (h : exn -> M A) (w : World) :
  (forall e w1, exists a w2, h e w1 = (Ok a, w2)) ->
  exists a w', try_except m h w = (Ok a, w').
Proof.
  intros Hh; unfold try_except.
  destruct (m w) as [[a|e] w1]; [now exists a, w1|apply Hh].
Qed.

Lemma call_ai_api_total (prompt : pystr) (w : World) :
  exists r w', _call_ai_api cfg prompt w = (Ok r, w').
Proof.
  unfold _call_ai_api.
  destruct (negb (truthy (AI_API_KEY cfg))).
  - now eexists _, _.
  - apply try_except_total; intros e w1; now eexists _, _.
Qed.

(** The parser hands one candidate to the decoder and re-raises its
    failure, with a line of log. *)
Lemma parse_ai_response_run (response : pystr) (w : World) :
  _parse_ai_response response w =
  match json_loads (json_candidate response) with
  | Some v => (Ok v, w)
  | None => (Raise JSONDecodeError, logged LError w)
  end.
Proof.
  unfold _parse_ai_response, json_candidate, try_except, loads, lift_opt.
  destruct (search fence_re response) as [m|];
    [|destruct (search brace_re response) as [m|]];
    match goal with
    | |- context [json_loads ?x] => destruct (json_loads x)
    end; reflexivity.
Qed.

(** A reply of the endpoint with status 200 and a first choice. *)
Lemma call_ai_api_reply (prompt reply : pystr) (w : World)
                        (others : list (option pystr)) (rest : list http_outcome) :
  truthy (AI_API_KEY cfg) = true ->
  replies w = HttpReply 200 (Some (Some reply :: others)) :: rest ->
  exists w', _call_ai_api cfg prompt w = (Ok (Some reply), w').
Proof.
  intros Hk Hw.
  unfold _call_ai_api; rewrite Hk; cbn [negb].
  unfold try_except, bind, http_post; cbv beta; rewrite Hw.
  now eexists.
Qed.

(** The fallback of C5: a reply the decoder refuses gives the default
    analysis. *)
Lemma analyze_falls_back_on_decode_failure
    (email_content sender reply : pystr) (w : World)
    (others : list (option pystr)) (rest : list http_outcome) :
  truthy email_content = true ->
  truthy (AI_API_KEY cfg) = true ->
  truthy reply = true ->
  replies w = HttpReply 200 (Some (Some reply :: others)) :: rest ->
  json_loads (spec_candidate reply) = None ->
  exists w',
    analyze_email_content cfg email_content sender w =
    (Ok (_get_default_analysis email_content (detect_language email_content)), w').
Proof.
  intros Hc Hk Hr Hw Hj.
  unfold analyze_email_content; rewrite Hc; cbn [negb].
  destruct (call_ai_api_reply
              (_build_analysis_prompt email_content (detect_language email_content))
              reply w others rest Hk Hw) as (w1 & H1).
  erewrite bind_ok by exact H1.
  destruct reply as [|c reply]; [discriminate|]; cbn [truthy_opt].
  unfold try_except, bind at 1 2.
  rewrite parse_ai_response_run, json_candidate_spec; cbn [get]; rewrite Hj.
  now eexists.
Qed.


(** C4.  [analyze_email_content] returns an analysis on every content,
    sender and world; on the empty content it returns the default at
    once, the world untouched. *)
Theorem analyze_email_content_total (email_content sender : pystr) (w : World) :
  (exists a w', analyze_email_content cfg email_content sender w = (Ok a, w'))
  /\ (exists a,
        analyze_email_content cfg [] sender w = (Ok a, w)
        /\ detected_language a = Some (u "zh")
        /\ need_reply a = Some true
        /\ reply_content a = Some []
        /\ intent a = Some (u "other")
        /\ urgency a = Some (u "medium")
        /\ can_auto_reply a = Some false).
Proof.
  split.
  - unfold analyze_email_content.
    destruct (negb (truthy email_content)); [now eexists _, _|].
    destruct (call_ai_api_total
                (_build_analysis_prompt email_content (detect_language email_content)) w)
      as (r & w1 & Hr).
    erewrite bind_ok by exact Hr.
    destruct (truthy_opt r); [|now eexists _, _].
    match goal with
    | |- context [try_except ?m ?h] =>
      destruct (try_except_total m h w1) as (x & w2 & Hx)
    end.
    { intros e w'; now eexists _, _. }
    erewrite bind_ok by exact Hx.
    destruct x; now eexists _, _.
  - eexists; split; [reflexivity|]. repeat split.
Qed.

(** What the orchestrator returns is the default analysis or a decoded
    object with the language and the sender set. *)
Lemma analyze_email_content_result (email_content sender : pystr) (w : World) :
  exists a w',
    analyze_email_content cfg email_content sender w = (Ok a, w') /\
    (a = _get_default_analysis email_content
           (if truthy email_content then detect_language email_content else u "zh")
     \/ (detected_language a = Some (detect_language email_content)
         /\ AiAnalyzer.sender a = Some sender)).
Proof.
  unfold analyze_email_content.
  destruct email_content as [|c s]; [eexists _, _; split; [reflexivity|now left]|].
  cbn [truthy negb].
  set (content := c :: s).
  destruct (call_ai_api_total
              (_build_analysis_prompt content (detect_language content)) w)
    as (r & w1 & Hr).
  erewrite bind_ok by exact Hr.
  destruct (truthy_opt r); [|eexists _, _; split; [reflexivity|now left]].
  unfold try_except, bind at 1 2.
  rewrite parse_ai_response_run.
  destruct (json_loads (json_candidate (get r []))) as [[a|]|];
    eexists _, _; (split; [reflexivity|]); cbn [truthy];
    [right; split; reflexivity|now left|now left].
Qed.

End Orchestrator.



(** The example of section 8: the object inside the fence is extracted,
    the prose around it ignored. *)
Example candidate_of_fenced_reply :
  AiAnalyzer.json_candidate
    (u "Here is the analysis:
```json
{" ++ AiAnalyzer.q "intent" ++ u ": " ++ AiAnalyzer.q "inquiry" ++ u ", " ++
     AiAnalyzer.q "reply_content" ++ u ": " ++ AiAnalyzer.q "Hi" ++ u "}
```
Let me know if you need more.")
  = u "{" ++ AiAnalyzer.q "intent" ++ u ": " ++ AiAnalyzer.q "inquiry" ++ u ", " ++
    AiAnalyzer.q "reply_content" ++ u ": " ++ AiAnalyzer.q "Hi" ++ u "}".
Proof. vm_compute; reflexivity. Qed.

(** A fence without a line break after the marker is no fenced block;
    the braces are tried next. *)
Example candidate_of_inline_fence :
  AiAnalyzer.json_candidate (u "```json {} ```") = u "{}".
Proof. vm_compute; reflexivity. Qed.

Example candidate_of_plain_text :
  AiAnalyzer.json_candidate (u "no json here") = u "no json here".
Proof. vm_compute; reflexivity. Qed.

(* ================================================================== *)
(** * Section 4.7: the reply composer *)
(* ================================================================== *)

Section CleanFacts.
Import AiAnalyzer.

Lemma split_not_nil (sep : Z) (s : pystr) : split sep s <> [].
Proof.
  destruct s as [|c s]; simpl; [discriminate|].
  destruct (c =? sep); [discriminate|].
  destruct (split sep s); discriminate.
Qed.

Lemma join_cons (sep p q : pystr) (ps : list pystr) :
  join sep (p :: q :: ps) = p ++ sep ++ join sep (q :: ps).
Proof. reflexivity. Qed.

Lemma join_split (sep : Z) (s : pystr) : join [sep] (split sep s) = s.
Proof.
  induction s as [|c s IH]; [reflexivity|].
  cbn [split].
  pose proof (split_not_nil sep s) as Hn.
  destruct (split sep s) as [|l ls]; [congruence|].
  destruct (Z.eqb_spec c sep) as [->|Hne].
  - rewrite join_cons, IH; reflexivity.
  - destruct ls as [|l2 ls].
    + cbn [join] in IH |- *; now rewrite IH.
    + rewrite join_cons in IH |- *; rewrite <- IH; reflexivity.
Qed.

(** Without an opening angle bracket there is no tag to remove. *)
Lemma sub_fuel_no_tag (fuel : nat) (s : pystr) :
  has_char 60 s = false -> sub_fuel fuel tag_re s = s.
Proof.
  revert s; induction fuel as [|f IH]; intros [|c s] H; try reflexivity.
  unfold has_char in H; cbn [existsb] in H.
  apply orb_false_iff in H as [Hc Hs].
  cbn [sub_fuel].
  unfold tag_re at 1; cbn [app]; rewrite match_at_one, Hc.
  f_equal; now apply IH.
Qed.

Lemma clean_loop_plain (lines acc : list pystr) (b : bool) :
  forallb plain_line lines = true ->
  fold_left _clean_loop_step lines (acc, b) =
  (acc ++ lines, match lines with [] => b | _ => false end).
Proof.
  revert acc b; induction lines as [|l lines IH]; intros acc b H.
  - now rewrite app_nil_r.
  - cbn [forallb] in H; apply andb_true_iff in H as [Hl Hs].
    unfold plain_line in Hl; apply andb_true_iff in Hl as [Ht He].
    apply str_eqb_eq in He.
    cbn [fold_left]; unfold _clean_loop_step at 2.
    rewrite He, Ht; cbn [negb].
    rewrite IH by assumption.
    rewrite <- app_assoc; cbn [app].
    now destruct lines.
Qed.

Lemma drop_empty_head (l : pystr) (ls : list pystr) :
  truthy l = true -> drop_empty (l :: ls) = l :: ls.
Proof. now destruct l. Qed.

Lemma forallb_rev {A} (f : A -> bool) (l : list A) :
  forallb f (rev l) = forallb f l.
Proof.
  induction l as [|x l IH]; [reflexivity|].
  cbn [rev forallb]; rewrite forallb_app, IH; cbn [forallb].
  rewrite andb_true_r; apply andb_comm.
Qed.

Lemma drop_empty_plain (lines : list pystr) :
  forallb plain_line lines = true -> drop_empty lines = lines.
Proof.
  destruct lines as [|l ls]; [reflexivity|].
  cbn [forallb]; intros H; apply andb_true_iff in H as [Hl _].
  unfold plain_line in Hl; apply andb_true_iff in Hl as [Ht _].
  now apply drop_empty_head.
Qed.

(** On a text without tags whose lines are neither empty nor surrounded
    by white space, the cleaning changes nothing. *)
Lemma clean_plain_text (content : pystr) :
  plain_text content = true -> _clean_original_content content = content.
Proof.
  unfold plain_text; intros H; apply andb_true_iff in H as [Htag Hlines].
  apply negb_true_iff in Htag.
  unfold _clean_original_content.
  destruct content as [|c content]; [reflexivity|].
  cbn [truthy negb].
  unfold sub_empty; rewrite sub_fuel_no_tag by assumption.
  rewrite clean_loop_plain by assumption; cbn [fst app].
  rewrite (drop_empty_plain (split nl (c :: content))) by assumption.
  rewrite drop_empty_plain by (now rewrite forallb_rev).
  rewrite rev_involutive; apply join_split.
Qed.

(** ** The cleaning, as section 4.7 words it *)

Lemma greedy_run {X} (p : Z -> bool) (k : pystr -> option X)
                 (pre : pystr) (c : Z) (rest : pystr) (m : X) :
  forallb p pre = true -> p c = false -> k (c :: rest) = Some m ->
  greedy p k (pre ++ c :: rest) = Some m.
Proof.
  intros Hp Hc Hk; induction pre as [|x pre IH]; cbn [app greedy].
  - now rewrite Hc.
  - cbn [forallb] in Hp; apply andb_true_iff in Hp as [Hx Hp].
    now rewrite Hx, (IH Hp).
Qed.

Lemma greedy_none {X} (p : Z -> bool) (k : pystr -> option X) (s : pystr) :
  (forall n, k (skipn n s) = None) -> greedy p k s = None.
Proof.
  induction s as [|c s IH]; intros H; cbn [greedy]; [exact (H 0%nat)|].
  rewrite IH by (intros n; exact (H (S n))).
  destruct (p c); exact (H 0%nat).
Qed.

(** A text is free of [>], or has a first one. *)
Lemma first_gt (s : pystr) :
  ~ In 62 s \/ exists body rest, s = body ++ 62 :: rest /\ ~ In 62 body.
Proof.
  induction s as [|c s [IH|(body & rest & -> & Hb)]].
  - left; tauto.
  - destruct (Z.eq_dec c 62) as [->|Hc].
    + right; exists [], s; split; [reflexivity|tauto].
    + left; cbn [In]; intuition congruence.
  - right. destruct (Z.eq_dec c 62) as [->|Hc].
    + exists [], (body ++ 62 :: rest); split; [reflexivity|tauto].
    + exists (c :: body), rest; split; [reflexivity|].
      cbn [In]; intuition congruence.
Qed.

Lemma no_gt_forallb (s : pystr) :
  ~ In 62 s -> forallb (fun c => negb (c =? 62)) s = true.
Proof.
  intros H; apply forallb_forall; intros x Hx.
  apply negb_true_iff, Z.eqb_neq; intros ->; contradiction.
Qed.

(** The three ways the pattern of a tag meets an opening bracket. *)
Lemma match_tag (body rest : pystr) (g : marks) :
  body <> [] -> ~ In 62 body ->
  match_at tag_re (60 :: body ++ 62 :: rest) g = Some (rest, g).
Proof.
  intros Hne Hb; unfold tag_re, plus; cbn [app].
  rewrite match_at_one, Z.eqb_refl.
  destruct body as [|a body]; [congruence|]. cbn [app].
  rewrite match_at_one.
  assert (Ha : negb (a =? 62) = true)
    by (apply negb_true_iff, Z.eqb_neq; intros ->; apply Hb; now left).
  rewrite Ha, match_at_greedy.
  apply greedy_run.
  - apply no_gt_forallb; intros H; apply Hb; now right.
  - reflexivity.
  - now rewrite match_at_one, Z.eqb_refl.
Qed.

Lemma match_tag_open (s : pystr) (g : marks) :
  ~ In 62 s -> match_at tag_re (60 :: s) g = None.
Proof.
  intros Hs; unfold tag_re, plus; cbn [app].
  rewrite match_at_one, Z.eqb_refl.
  destruct s as [|a s]; [reflexivity|].
  rewrite match_at_one.
  destruct (negb (a =? 62)); [|reflexivity].
  rewrite match_at_greedy; apply greedy_none; intros n.
  destruct (skipn n s) as [|x t] eqn:E; [reflexivity|].
  rewrite match_at_one.
  assert (Hx : In x s).
  { rewrite <- (firstn_skipn n s), E; apply in_or_app; right; now left. }
  destruct (Z.eqb_spec 62 x) as [<-|_]; [|reflexivity].
  exfalso; apply Hs; now right.
Qed.

Lemma match_tag_other (c : Z) (s : pystr) (g : marks) :
  c <> 60 -> match_at tag_re (c :: s) g = None.
Proof.
  intros Hc; unfold tag_re, plus; cbn [app].
  rewrite match_at_one.
  destruct (Z.eqb_spec 60 c); [congruence|reflexivity].
Qed.

(** What is pending comes out as it is when no [>] follows, and goes
    with the first [>] when it holds more than the bracket. *)
Lemma without_tags_open (p s : pystr) :
  ~ In 62 s -> without_tags (Some p) s = p ++ s.
Proof.
  revert p; induction s as [|c s IH]; intros p H; cbn [without_tags].
  - now rewrite app_nil_r.
  - destruct (Z.eqb_spec c 62) as [->|_]; [exfalso; apply H; now left|].
    rewrite IH by (intros Hin; apply H; now right).
    now rewrite <- app_assoc.
Qed.

Lemma without_tags_close (p body rest : pystr) :
  ~ In 62 body ->
  without_tags (Some p) (body ++ 62 :: rest) =
  if (1 <? length (p ++ body))%nat then without_tags None rest
  else (p ++ body) ++ 62 :: without_tags None rest.
Proof.
  revert p; induction body as [|c body IH]; intros p H; cbn [app without_tags].
  - rewrite Z.eqb_refl, app_nil_r; reflexivity.
  - destruct (Z.eqb_spec c 62) as [->|_]; [exfalso; apply H; now left|].
    rewrite IH by (intros Hin; apply H; now right).
    now rewrite <- app_assoc.
Qed.

Lemma without_tags_plain (s : pystr) :
  ~ In 62 s -> without_tags None s = s.
Proof.
  induction s as [|c s IH]; intros H; cbn [without_tags]; [reflexivity|].
  assert (Hs : ~ In 62 s) by (intros Hin; apply H; now right).
  destruct (Z.eqb_spec c 60) as [->|_].
  - now rewrite without_tags_open.
  - now rewrite IH.
Qed.

(** [re.sub] with the pattern of a tag takes the tags out. *)
Lemma sub_fuel_tags (fuel : nat) (s : pystr) :
  (length s <= fuel)%nat -> sub_fuel fuel tag_re s = without_tags None s.
Proof.
  revert s; induction fuel as [|f IH]; intros s Hlen.
  - destruct s; [reflexivity|cbn in Hlen; lia].
  - destruct s as [|c s']; [reflexivity|].
    cbn [length] in Hlen; cbn [sub_fuel without_tags].
    destruct (Z.eqb_spec c 60) as [->|Hc].
    + destruct (first_gt s') as [Hopen|(body & rest & -> & Hb)].
      * rewrite match_tag_open by assumption.
        rewrite IH by lia.
        now rewrite without_tags_plain, without_tags_open.
      * destruct body as [|a body].
        -- cbn [app length] in Hlen |- *.
           assert (Hm : match_at tag_re (60 :: 62 :: rest) (None, None) = None).
           { unfold tag_re, plus; cbn [app].
             now rewrite match_at_one, Z.eqb_refl, match_at_one. }
           rewrite Hm, IH by (cbn [length]; lia).
           cbn [without_tags]. reflexivity.
        -- rewrite match_tag by (assumption || discriminate).
           match goal with
           | |- context [Nat.ltb ?x ?y] =>
             replace (Nat.ltb x y) with true
               by (symmetry; apply Nat.ltb_lt; cbn [length];
                   rewrite length_app; cbn [length]; lia)
           end.
           rewrite IH.
           ++ rewrite without_tags_close by assumption. reflexivity.
           ++ rewrite length_app in Hlen; cbn [length] in Hlen; lia.
    + rewrite match_tag_other by assumption.
      now rewrite IH by lia.
Qed.

Lemma sub_empty_tags (s : pystr) : sub_empty tag_re s = without_tags None s.
Proof. apply sub_fuel_tags; lia. Qed.

(** The loop over the lines squeezes the runs of empty lines. *)
Lemma squeeze_blank (ls : list pystr) :
  squeeze ([] :: ls) = [] :: squeeze (drop_blank ls).
Proof.
  induction ls as [|l ls IH]; [reflexivity|].
  destruct l as [|c l]; [|reflexivity].
  change (squeeze ([] :: [] :: ls)) with (squeeze ([] :: ls)).
  now rewrite IH.
Qed.

Lemma clean_loop_squeeze (lines acc : list pystr) (prev_empty : bool) :
  fst (fold_left _clean_loop_step lines (acc, prev_empty))
  = acc ++ squeeze (if prev_empty then drop_blank (map strip lines)
                    else map strip lines).
Proof.
  revert acc prev_empty; induction lines as [|line lines IH]; intros acc prev.
  - cbn; destruct prev; now rewrite app_nil_r.
  - cbn [fold_left map]; unfold _clean_loop_step at 2.
    destruct (strip line) as [|c l] eqn:E; cbn [truthy negb].
    + destruct prev; cbn [negb]; rewrite IH.
      * reflexivity.
      * rewrite squeeze_blank, <- app_assoc; reflexivity.
    + rewrite IH, <- app_assoc.
      destruct prev; reflexivity.
Qed.

Lemma drop_empty_blank (ls : list pystr) : drop_empty ls = drop_blank ls.
Proof. induction ls as [|[|c l] ls IH]; [reflexivity|exact IH|reflexivity]. Qed.

(** The cleaning of the sources is the one of section 4.7. *)
Lemma clean_original_content_spec (content : pystr) :
  _clean_original_content content = spec_clean content.
Proof.
  unfold _clean_original_content, spec_clean, trim_blank.
  destruct content as [|c content]; [reflexivity|]. cbn [truthy negb].
  rewrite sub_empty_tags, clean_loop_squeeze, !drop_empty_blank.
  reflexivity.
Qed.

End CleanFacts.

Section Composer.
Import AiAnalyzer.
Variable cfg : Config.

Lemma strip_nil : strip [] = [].
Proof. reflexivity. Qed.

(** The quote the composer appends to a reply. *)
Lemma add_original_quote_nonblank (reply_body original language : pystr) :
  strip original <> [] ->
  _add_original_quote reply_body original language =
  reply_body ++ quote_header language ++
  join [nl] (map (fun line => u "> " ++ line)
                 (split nl (_clean_original_content original))).
Proof.
  intros H; unfold _add_original_quote.
  destruct original as [|c original]; [now rewrite strip_nil in H|].
  destruct (strip (c :: original)) eqn:E; [congruence|reflexivity].
Qed.


End Composer.



(** What the quote of the witness is. *)
Example quote_of_witness :
  spec_quote (u "  Hello


<b>World</b>") = u "> Hello
> 
> World".
Proof. vm_compute; reflexivity. Qed.

(** Tags are removed and runs of blank lines collapsed before the
    quoting. *)
Example quote_of_html :
  AiAnalyzer._add_original_quote (u "Thanks.") (u "Hello

<b>World</b>  
") (u "zh") = u "Thanks.

--- 原邮件 ---
> Hello
> 
> World".
Proof. vm_compute; reflexivity. Qed.

(* ================================================================== *)
(** * Section 4.8: the translation service *)
(* ================================================================== *)

Section Translation.
Import EmailProcessor Trans.
Context {cf : CaseFolding}.
Variable cfg : Config.

(** [_translate_text] never raises: every failure gives the text back. *)
Lemma translate_text_total (text : option pystr) (source target : pystr) (w : World) :
  exists r w', _translate_text cfg text source target w = (Ok r, w').
Proof.
  unfold _translate_text.
  destruct text as [text|]; [|now eexists _, _].
  destruct (negb (truthy text) || negb (truthy (strip text))); [now eexists _, _|].
  apply try_except_total; intros e w1; now eexists _, _.
Qed.

(** C10.  With an absent [text_content] and a target other than
    [unknown], the body of the [try] raises TypeError on the length of
    the absent text, the handler raises TypeError on the same length,
    and [translate_email] raises instead of returning a result. *)
Theorem translate_email_raises_on_absent_text
    (processed_email : ProcessedEmail) (target_language : pystr) (w : World) :
  text_content processed_email = None ->
  target_language <> u "unknown" ->
  exists w1 w2,
    translate_body cfg processed_email target_language w = (Raise TypeError, w1)
    /\ translate_handler processed_email TypeError w1 = (Raise TypeError, w2)
    /\ translate_email cfg processed_email target_language w = (Raise TypeError, w2).
Proof.
  intros Htext Htarget.
  assert (Hbody : exists w1,
             translate_body cfg processed_email target_language w
             = (Raise TypeError, w1)).
  { unfold translate_body; rewrite Htext.
    change (_detect_language None) with (u "unknown").
    rewrite (str_eqb_neq (u "unknown") target_language) by congruence.
    destruct (translate_text_total (Some (subject processed_email))
                (u "unknown") target_language w) as (r & w1 & Hr).
    erewrite bind_ok by exact Hr.
    exists w1; reflexivity. }
  destruct Hbody as (w1 & Hbody).
  exists w1, (logged LError w1); split; [exact Hbody|split].
  - unfold translate_handler; rewrite Htext; reflexivity.
  - unfold translate_email; erewrite try_raise by exact Hbody.
    unfold translate_handler; rewrite Htext; reflexivity.
Qed.

End Translation.

Lemma translate_email_raises_on_absent_text_witness :
  EmailProcessor.text_content sample_email = None /\
  u "zh" <> u "unknown" /\
  exists w1 w2,
    Trans.translate_body (cf := UnicodeCase) default_config sample_email (u "zh")
                         sample_world = (Raise TypeError, w1)
    /\ Trans.translate_handler sample_email TypeError w1 = (Raise TypeError, w2)
    /\ Trans.translate_email (cf := UnicodeCase) default_config sample_email (u "zh")
                             sample_world = (Raise TypeError, w2).
Proof.
  split; [reflexivity|].
  split; [vm_compute; discriminate|].
  apply (translate_email_raises_on_absent_text (cf := UnicodeCase)
           default_config sample_email (u "zh") sample_world).
  - reflexivity.
  - vm_compute; discriminate.
Defined.

(** The same call on a message with a text part soft-fails: the
    endpoint being down, both fields come back untranslated. *)
Example translate_email_soft_fails :
  exists r w',
    Trans.translate_email (cf := UnicodeCase) default_config
      {| EmailProcessor.from_email := u "alice@example.com";
         EmailProcessor.to_email := u "ai@kr777.top";
         EmailProcessor.subject := u "Greetings";
         EmailProcessor.date := [];
         EmailProcessor.message_id := [];
         EmailProcessor.text_content := Some (u "Hello");
         EmailProcessor.html_content := None;
         EmailProcessor.attachments := [];
         EmailProcessor.raw_size := 66 |}
      (u "zh") sample_world = (Ok r, w')
    /\ Trans.success r = true.
Proof. eexists _, _; split; vm_compute; reflexivity. Qed.
